(** * Google Maps review scraper: harvest engine and job tracker

    A shallow embedding of [app/scraper.py] (class [GoogleMapsScraper]) and of
    the job routes of [app/main.py], with the properties of the written
    specification stated and proved over it.

    The Selenium driver is an external capability.  It is modelled by a
    [Session]: a record that fixes, for one run, what every driver call
    answers.  Calls that only read the document are values of the error
    monad [result]; calls that act on the browser go through the monad [M],
    which also keeps the scraper's [driver] attribute and the log of the
    commands issued. *)

From stdpp Require Import gmap strings list fin_maps fin_sets.
From Stdlib Require Import ZArith Lia Ascii String.
From Equations Require Import Equations.

Set Warnings "-clear-no-such-hyp".

Local Open Scope string_scope.
Local Open Scope Z_scope.
Local Open Scope nat_scope.

(** ** Python strings *)

Module PyStr.

(** A Python [str] is kept as the bytes of its UTF-8 encoding, which is how
    the string literals of this file are read.  [utf8] encodes a code point
    of the basic plane. *)
Definition utf8 (code : N) : string :=
  let byte (n : N) := ascii_of_N n in
  if (code <? 0x80)%N then String (byte code) ""
  else if (code <? 0x800)%N then
    String (byte (0xC0 + code / 0x40)%N) (String (byte (0x80 + code mod 0x40)%N) "")
  else
    String (byte (0xE0 + code / 0x1000)%N)
      (String (byte (0x80 + (code / 0x40) mod 0x40)%N)
         (String (byte (0x80 + code mod 0x40)%N) "")).

(** The code points for which [str.isspace()] holds, which are those
    [str.strip()] removes: TAB to CR, the separators 28 to 31, the blank,
    NEL, the no-break space and the Unicode spaces and line separators up to
    the ideographic space. *)
Definition white_space : list N :=
  [ 0x09; 0x0A; 0x0B; 0x0C; 0x0D; 0x1C; 0x1D; 0x1E; 0x1F; 0x20; 0x85; 0xA0;
    0x1680; 0x2000; 0x2001; 0x2002; 0x2003; 0x2004; 0x2005; 0x2006; 0x2007;
    0x2008; 0x2009; 0x200A; 0x2028; 0x2029; 0x202F; 0x205F; 0x3000 ]%N.

(** [c] is the encoding of one white-space character. *)
Definition is_space (c : string) : bool :=
  existsb (fun code => String.eqb c (utf8 code)) white_space.

(** [str.lstrip()]: the encoding of a white-space character has one, two or
    three bytes. *)
Fixpoint lstrip (s : string) : string :=
  match s with
  | EmptyString => EmptyString
  | String c1 s1 =>
      if is_space (String c1 "") then lstrip s1
      else
        match s1 with
        | EmptyString => s
        | String c2 s2 =>
            if is_space (String c1 (String c2 "")) then lstrip s2
            else
              match s2 with
              | EmptyString => s
              | String c3 s3 =>
                  if is_space (String c1 (String c2 (String c3 ""))) then lstrip s3
                  else s
              end
        end
  end.

(** [str.rstrip()]: what is left of [s] is empty as long as it is white
    space only. *)
Fixpoint rstrip (s : string) : string :=
  match s with
  | EmptyString => EmptyString
  | String c s' =>
      let t := String c (rstrip s') in
      if is_space t then EmptyString else t
  end.

(** [str.strip()] removes leading and trailing white space. *)
Definition strip (s : string) : string := rstrip (lstrip s).

(** [s.replace(old, new)] for a non-empty [old]: every occurrence of [old],
    found from left to right without overlap, becomes [new].  [skip] counts
    the characters of an occurrence that are still to be dropped. *)
Fixpoint replace_from (old new : string) (skip : nat) (s : string) : string :=
  match s with
  | EmptyString => EmptyString
  | String c s' =>
      match skip with
      | S k => replace_from old new k s'
      | O =>
          if String.prefix old s
          then new +:+ replace_from old new (String.length old - 1) s'
          else String c (replace_from old new 0 s')
      end
  end.

Definition replace (old new s : string) : string := replace_from old new 0 s.

(** A string between double quotes, for the XPath literals below. *)
Definition q (s : string) : string :=
  String (ascii_of_nat 34) s +:+ String (ascii_of_nat 34) EmptyString.

(** Truth value of a string: [if s:] holds for the non-empty ones. *)
Definition truthy (s : string) : bool :=
  match s with EmptyString => false | _ => true end.

(** [x or ""] for an optional string. *)
Definition or_empty (o : option string) : string :=
  match o with
  | Some s => if truthy s then s else ""
  | None => ""
  end.

End PyStr.

(** ** Exceptions *)

(** The exception classes the two modules raise or name in an [except]
    clause, with [OSError] and [WebDriverException] as the bases Python and
    Selenium give them.  The driver raises subclasses of [Exception] only. *)
Inductive exn_class :=
| FileNotFoundError
| OSError
| ValueError
| KeyError
| NoSuchElementException
| TimeoutException
| StaleElementReferenceException
| WebDriverException
| Exception.

#[global] Instance exn_class_eq_dec : EqDecision exn_class.
Proof. solve_decision. Defined.

(** An exception object: its class and what [str(e)] gives. *)
Record exn := mk_exn { class_of : exn_class; str : string }.

#[global] Instance exn_eq_dec : EqDecision exn.
Proof. solve_decision. Defined.

(** [subclass c d]: an exception of class [c] is caught by [except d]. *)
Definition subclass (c d : exn_class) : bool :=
  match d with
  | Exception => true
  | WebDriverException =>
      match c with
      | NoSuchElementException | TimeoutException
      | StaleElementReferenceException | WebDriverException => true
      | _ => false
      end
  | OSError =>
      match c with FileNotFoundError | OSError => true | _ => false end
  | _ => bool_decide (c = d)
  end.

(** ** Results: a value or a raised exception *)

Inductive result (A : Type) :=
| Ok (a : A)
| Raise (e : exn).
Arguments Ok {A} a.
Arguments Raise {A} e.

#[global] Instance result_ret : MRet result := fun A a => Ok a.
#[global] Instance result_bind : MBind result := fun A B f r =>
  match r with
  | Ok a => f a
  | Raise e => Raise e
  end.

(** [try: r except cls: h e]. *)
Definition catchR {A} (r : result A) (cls : exn_class) (h : exn → result A)
  : result A :=
  match r with
  | Raise e => if subclass (class_of e) cls then h e else Raise e
  | ok => ok
  end.

Definition is_Ok {A} (r : result A) : bool :=
  match r with Ok _ => true | Raise _ => false end.

(** ** The driver as an oracle *)

(** A located element: what reading it answers, what acting on it answers,
    and what a lookup below it finds.  A lookup that finds nothing raises
    [NoSuchElementException], as [find_element] does. *)
Local Unset Elimination Schemes.
Inductive WebElement := mk_element {
  text : result string;
  get_attribute : string → result (option string);
  click : result unit;
  script_click : result unit;
  find_element : string → result WebElement
}.
Local Set Elimination Schemes.

(** What one run of the browser answers.  [scroll_script n] and
    [scroll_elements n] are the answers at the scroll attempt that starts
    with [scroll_count = n]; [review_elements] is the answer to the lookup of
    the extraction pass. *)
Record Session := {
  Chrome : string → result unit;
  execute_cdp_cmd : result unit;
  webdriver_script : result unit;
  get : string → result unit;
  driver_find_element : string → result WebElement;
  wait_presence : string → result WebElement;
  wait_clickable : string → result WebElement;
  scroll_script : nat → result unit;
  scroll_elements : nat → result (list WebElement);
  see_more_buttons : result (list WebElement);
  review_elements : result (list WebElement);
  quit : result unit
}.

(** ** Commands and the scraper's state *)

(** The calls that act on the browser, as the scraper issues them. *)
Inductive command :=
| NewChrome (path : string)
| CdpCmd
| ExecuteScript (src : string)
| Get (url : string)
| Click
| Quit.

#[global] Instance command_eq_dec : EqDecision command.
Proof. solve_decision. Defined.

(** [driver] tells whether [self.driver] holds a live driver ([None] at
    first); [log] lists the commands issued so far, oldest first. *)
Record State := mk_state { driver : bool; log : list command }.

Definition init_state : State := {| driver := false; log := [] |}.

(** ** The state and exception monad *)

(** A computation over a state [Σ]: it ends with a value or with a raised
    exception, and in both cases with the state it reached. *)
Definition ST (Σ A : Type) : Type := Σ → Σ * result A.

#[global] Instance ST_ret {Σ} : MRet (ST Σ) := fun A a σ => (σ, Ok a).
#[global] Instance ST_bind {Σ} : MBind (ST Σ) := fun A B f m σ =>
  match m σ with
  | (σ', Ok a) => f a σ'
  | (σ', Raise e) => (σ', Raise e)
  end.

Definition raise {Σ A} (e : exn) : ST Σ A := fun σ => (σ, Raise e).

(** A read that leaves the state as it is. *)
Definition liftR {Σ A} (r : result A) : ST Σ A := fun σ => (σ, r).

(** [try: m] followed by [except] clauses: the first clause whose class
    matches handles the exception; what a handler raises is not offered to
    the later clauses. *)
Definition try_except {Σ A} (m : ST Σ A) (hs : list (exn_class * (exn → ST Σ A)))
  : ST Σ A :=
  fun σ =>
    match m σ with
    | (σ', Raise e) =>
        match List.find (fun h => subclass (class_of e) (fst h)) hs with
        | Some h => snd h e σ'
        | None => (σ', Raise e)
        end
    | r => r
    end.

(** [try: m finally: f]: [f] runs on every exit of [m]; an exception of [f]
    replaces the outcome of [m]. *)
Definition try_finally {Σ A} (m : ST Σ A) (f : ST Σ unit) : ST Σ A :=
  fun σ =>
    let '(σ1, r) := m σ in
    match f σ1 with
    | (σ2, Ok _) => (σ2, r)
    | (σ2, Raise e) => (σ2, Raise e)
    end.

(** The scraper's computations. *)
Abbreviation M := (ST State).

(** A command: logged, then answered by the session. *)
Definition call {A} (c : command) (r : result A) : M A :=
  fun σ => ({| driver := driver σ; log := log σ ++ [c] |}, r).

(** [self.driver = ...] once the driver exists. *)
Definition set_driver : M unit :=
  fun σ => ({| driver := true; log := log σ |}, Ok tt).

(** ** [GoogleMapsScraper] *)

Import PyStr.

(** The attributes [__init__] stores and the methods read.  The two delays
    and the wait bound only decide how long a call blocks; what the call
    answers is the session's. *)
Record GoogleMapsScraper := {
  maps_url : string;
  chromedriver_path : string;
  headless : bool;
  max_scrolls : Z
}.

(** One harvested review, the dictionary [_extract_reviews] appends.  The
    rating is whatever [get_attribute] gave, [None] included. *)
Record review := {
  review_id : string;
  reviewer : string;
  rating : option string;
  review_text : string;
  date : string;
  company_name : string;
  phone_number : string
}.

(** The XPath of the place name. *)
Definition name_xpath : string := "//h1[contains(@class," +:+ q "DUwDvf" +:+ ")]".

(** The XPath literals of the extraction pass. *)
Definition star_xpath : string := ".//*[contains(@aria-label," +:+ q "star" +:+ ")]".
Definition text_xpath : string := ".//span[@class=" +:+ q "wiI7pd" +:+ "]".
Definition reviewer_xpath : string := ".//div[contains(@class," +:+ q "d4r55" +:+ ")]".
Definition date_xpath : string := ".//span[contains(@class," +:+ q "rsqaWe" +:+ ")]".

Section Scraper.

Variable self : GoogleMapsScraper.
Variable s : Session.

Definition _setup_driver : M unit :=
  call (NewChrome (chromedriver_path self)) (Chrome s (chromedriver_path self));;
  set_driver;;
  call CdpCmd (execute_cdp_cmd s);;
  call (ExecuteScript
          "Object.defineProperty(navigator, 'webdriver', {get: () => undefined})")
       (webdriver_script s).

Definition _close_cookie_popup : M unit :=
  try_except
    (reject_btn ← liftR (driver_find_element s "//button[contains(., 'Reject all')]");
     call Click (click reject_btn))
    [(NoSuchElementException, fun _ => mret tt)].

(** [except NoSuchElementException: k], for a read that raised [e]. *)
Definition on_no_such_element {A} (e : exn) (k : result A) : result A :=
  if subclass (class_of e) NoSuchElementException then k else Raise e.

Definition phone_candidates : list string :=
  [ "//button[contains(@aria-label, " +:+ q "Phone" +:+ ")]";
    "//button[contains(@data-item-id, " +:+ q "phone:tel" +:+ ")]";
    "//button[contains(@aria-label, " +:+ q "Call" +:+ ")]";
    "//div[contains(text(), " +:+ q "+" +:+ ") and contains(text(), " +:+ q " " +:+ ")]";
    "//a[contains(@href," +:+ q "tel:" +:+ ")]" ].

(** The loop over the phone candidates.  [phone_number] is the local
    variable: an exception leaves it as the last assignment made it, and
    [break] ends the loop with its value. *)
Fixpoint phone_loop (candidates : list string) (phone_number : string)
  : result string :=
  match candidates with
  | [] => Ok phone_number
  | xpath :: rest =>
      match driver_find_element s xpath with
      | Raise e => on_no_such_element e (phone_loop rest phone_number)
      | Ok phone_el =>
          match text phone_el with
          | Raise e => on_no_such_element e (phone_loop rest phone_number)
          | Ok t =>
              let phone_number := strip t in
              if truthy phone_number then Ok phone_number
              else
                match get_attribute phone_el "href" with
                | Raise e => on_no_such_element e (phone_loop rest phone_number)
                | Ok href =>
                    let phone_number := replace "tel:" "" (or_empty href) in
                    if truthy phone_number then Ok phone_number
                    else phone_loop rest phone_number
                end
          end
      end
  end.

Definition _extract_company_info : result (string * string) :=
  company_name ←
    catchR (name_el ← wait_presence s name_xpath;
            t ← text name_el;
            Ok (strip t))
           TimeoutException (fun _ => Ok "");
  phone_number ← phone_loop phone_candidates "";
  Ok (company_name, strip phone_number).

Definition possible_tabs : list string :=
  [ "//button[contains(@aria-label," +:+ q "reviews" +:+ ")]";
    "//button[contains(text()," +:+ q "Reviews" +:+ ")]";
    "//button[contains(text()," +:+ q "Rating" +:+ ")]" ].

(** The loop over the tab candidates; the value is [tab_clicked]. *)
Fixpoint tabs_loop (candidates : list string) : M bool :=
  match candidates with
  | [] => mret false
  | xpath :: rest =>
      clicked ←
        try_except
          (review_tab ← liftR (wait_clickable s xpath);
           call (ExecuteScript "arguments[0].click();") (script_click review_tab);;
           mret true)
          [(TimeoutException, fun _ => mret false)];
      if clicked : bool then mret true else tabs_loop rest
  end.

Definition _open_reviews_tab : M unit :=
  try_except
    (tab_clicked ← tabs_loop possible_tabs;
     if tab_clicked : bool then mret tt
     else raise (mk_exn Exception "Could not find the reviews tab on the page"))
    [(Exception,
      fun e => raise (mk_exn Exception ("Could not open reviews section: " +:+ str e)))].

(** *** The scroll-and-collect loop *)

(** The local variables of [_scroll_reviews]. *)
Record loop_state := {
  seen_ids : gset string;
  stale_count : nat;
  scroll_count : nat
}.

Definition max_stale : nat := 6.

(** [current_ids] after the [for] over the elements found: the non-empty
    [data-review-id] values. *)
Fixpoint collect_ids (elements : list WebElement) (current_ids : gset string)
  : result (gset string) :=
  match elements with
  | [] => Ok current_ids
  | el :: rest =>
      rid ← get_attribute el "data-review-id";
      collect_ids rest
        (if truthy (or_empty rid) then {[ or_empty rid ]} ∪ current_ids
         else current_ids)
  end.

(** The first half of the loop body: scroll to the bottom, let the page
    settle, and read the identifiers now present. *)
Definition scroll_observe (scroll_count : nat) : M (gset string) :=
  call (ExecuteScript "arguments[0].scrollTop = arguments[0].scrollHeight")
       (scroll_script s scroll_count);;
  elements ← liftR (scroll_elements s scroll_count);
  liftR (collect_ids elements ∅).

(** The second half: fold [current_ids] into the local variables. *)
Definition scroll_update (st : loop_state) (current_ids : gset string)
  : loop_state :=
  let new_reviews := current_ids ∖ seen_ids st in
  if bool_decide (new_reviews ≠ ∅)
  then {| seen_ids := seen_ids st ∪ new_reviews;
          stale_count := 0;
          scroll_count := scroll_count st + 1 |}
  else {| seen_ids := seen_ids st;
          stale_count := stale_count st + 1;
          scroll_count := scroll_count st + 1 |}.

Definition loop_cond (st : loop_state) : bool :=
  (stale_count st <? max_stale) && (Z.of_nat (scroll_count st) <? max_scrolls self)%Z.

(** [while stale_count < max_stale and scroll_count < self.max_scrolls]. *)
Equations? scroll_loop (st : loop_state) (σ : State) : State * result loop_state
  by wf (Z.to_nat (max_scrolls self - Z.of_nat (scroll_count st))) lt :=
  scroll_loop st σ with Logic.inspect (loop_cond st) := {
    | exist _ false _ => (σ, Ok st)
    | exist _ true Hcond with scroll_observe (scroll_count st) σ := {
        | (σ', Ok current_ids) => scroll_loop (scroll_update st current_ids) σ'
        | (σ', Raise e) => (σ', Raise e) } }.
Proof.
  unfold loop_cond in Hcond. apply andb_true_iff in Hcond as [_ Hlt].
  apply Z.ltb_lt in Hlt.
  unfold scroll_update. case_bool_decide; simpl; lia.
Qed.

Definition _scroll_reviews : M (gset string) :=
  scroll_div ← liftR (wait_presence s
    ("//div[contains(@class," +:+ q "m6QErb" +:+ ") and contains(@class,"
       +:+ q "DxyBCb" +:+ ")]"));
  st ← scroll_loop {| seen_ids := ∅; stale_count := 0; scroll_count := 0 |};
  mret (seen_ids st).

(** *** Expansion and extraction *)

(** The [for] over the "See more" buttons; the bare [except] swallows
    whatever a click raises. *)
Fixpoint click_all (buttons : list WebElement) : M unit :=
  match buttons with
  | [] => mret tt
  | btn :: rest =>
      try_except
        (call (ExecuteScript "arguments[0].click();") (script_click btn))
        [(Exception, fun _ => mret tt)];;
      click_all rest
  end.

Definition _expand_see_more : M unit :=
  buttons ← liftR (see_more_buttons s);
  click_all buttons.

(** One field of a review: the text of the element [xpath] finds below
    [r], stripped; the empty string when nothing is found. *)
Definition text_field (r : WebElement) (xpath : string) : result string :=
  catchR (el ← find_element r xpath; t ← text el; Ok (strip t))
         NoSuchElementException (fun _ => Ok "").

(** The rating: the label of the star element, ["No rating"] when nothing
    is found. *)
Definition rating_field (r : WebElement) : result (option string) :=
  catchR (rating_el ← find_element r star_xpath;
          get_attribute rating_el "aria-label")
         NoSuchElementException (fun _ => Ok (Some "No rating")).

(** The body of the extraction loop, inside its [try]: [Ok None] is the
    [continue] for an element without identifier. *)
Definition extract_review (company_name phone_number : string) (r : WebElement)
  : result (option review) :=
  review_id ← get_attribute r "data-review-id";
  if negb (truthy (or_empty review_id)) then Ok None
  else
    rating ← rating_field r;
    text ← text_field r text_xpath;
    reviewer ← text_field r reviewer_xpath;
    date ← text_field r date_xpath;
    Ok (Some {| review_id := or_empty review_id;
                reviewer := reviewer;
                rating := rating;
                review_text := text;
                date := date;
                company_name := company_name;
                phone_number := phone_number |}).

(** The extraction loop: both [except] clauses skip the element. *)
Fixpoint extract_loop (company_name phone_number : string)
    (elements : list WebElement) (reviews_data : list review) : list review :=
  match elements with
  | [] => reviews_data
  | r :: rest =>
      match extract_review company_name phone_number r with
      | Ok (Some rv) => extract_loop company_name phone_number rest (reviews_data ++ [rv])
      | Ok None | Raise _ => extract_loop company_name phone_number rest reviews_data
      end
  end.

Definition _extract_reviews (company_name phone_number : string)
  : result (list review) :=
  elements ← review_elements s;
  Ok (extract_loop company_name phone_number elements []).

(** *** The harvest *)

(** The [try] block of [scrape]. *)
Definition scrape_try : M (list review) :=
  _setup_driver;;
  call (Get (maps_url self)) (get s (maps_url self));;
  _close_cookie_popup;;
  '(company_name, phone_number) ← liftR _extract_company_info;
  _open_reviews_tab;;
  _scroll_reviews;;
  _expand_see_more;;
  reviews_data ← liftR (_extract_reviews company_name phone_number);
  mret reviews_data.

(** The [finally] block of [scrape]. *)
Definition scrape_finally : M unit :=
  fun σ => if driver σ then call Quit (quit s) σ else (σ, Ok tt).

Definition scrape : M (list review) :=
  try_finally
    (try_except scrape_try
       [(Exception,
         fun e => raise (mk_exn Exception ("Scraping failed: " +:+ str e)))])
    scrape_finally.

End Scraper.

(** ** The job tracker of [app/main.py] *)

(** A job dictionary.  The four keys [start_scrape] writes are always there;
    the others are absent until the background task writes them. *)
Record Job := {
  job_id : string;
  status : string;
  created_at : string;
  job_maps_url : string;
  started_at : option string;
  completed_at : option string;
  total_reviews : option Z;
  output_file : option string;
  error : option string;
  error_trace : option string;
  error_type : option string
}.

(** What a file under [output/] holds: the JSON text of a record list, read
    back by [json.load] as that list, or the start of such a text, which is
    what [open(..., "w")] and a write that raised leave and which
    [json.load] rejects. *)
Inductive content :=
| Json (data : list review)
| Truncated.

(** The process state: [jobs_db], and the files under [output/] with what
    each one holds. *)
Record Server := {
  jobs_db : gmap string Job;
  files : gmap string content
}.

(** What the environment answers during one background run: the browser
    session, the two clock readings, the file-system calls ([mkdir], the
    [open] of the output file, and [json.dump] into it with the close of the
    file at the end of the [with] block) and the formatted traceback. *)
Record Env := {
  session : Session;
  now_started : string;
  now_completed : string;
  mkdir : result unit;
  open_write : string → result unit;
  dump : string → result unit;
  format_exc : exn → string
}.

(** What a route gives back: a body, an [HTTPException], or an exception
    the route does not catch, which the framework answers with status
    500. *)
Inductive response (A : Type) :=
| Return (a : A)
| HTTPException (status_code : Z) (detail : string)
| Uncaught (class : exn_class).
Arguments Return {A} a.
Arguments HTTPException {A} status_code detail.
Arguments Uncaught {A} class.

Section Main.

(** The module constant [find_chromedriver()] computed at import. *)
Variable CHROMEDRIVER_PATH : string.

(** [jobs_db[job_id]] followed by an update [f] of the dictionary found;
    [KeyError] when the key is absent. *)
Definition update_job (id : string) (f : Job → Job) : ST Server unit :=
  fun σ =>
    match jobs_db σ !! id with
    | Some job => ({| jobs_db := <[id := f job]> (jobs_db σ); files := files σ |}, Ok tt)
    | None => (σ, Raise (mk_exn KeyError ("'" +:+ id +:+ "'")))
    end.

(** [open(output_file, "w", ...)]: once the file is open it exists and is
    empty. *)
Definition open_file (env : Env) (path : string) : ST Server unit :=
  fun σ =>
    match open_write env path with
    | Ok _ => ({| jobs_db := jobs_db σ; files := <[path := Truncated]> (files σ) |}, Ok tt)
    | Raise e => (σ, Raise e)
    end.

(** [json.dump(reviews_data, f, ...)] and the end of the [with] block: the
    file holds the whole text, or the write or the close raised and it
    holds a part of it. *)
Definition write_file (env : Env) (path : string) (data : list review)
  : ST Server unit :=
  fun σ =>
    match dump env path with
    | Ok _ => ({| jobs_db := jobs_db σ; files := <[path := Json data]> (files σ) |}, Ok tt)
    | Raise e =>
        ({| jobs_db := jobs_db σ; files := <[path := Truncated]> (files σ) |}, Raise e)
    end.

Definition set_processing (t : string) (j : Job) : Job :=
  {| job_id := job_id j; status := "processing"; created_at := created_at j;
     job_maps_url := job_maps_url j; started_at := Some t;
     completed_at := completed_at j; total_reviews := total_reviews j;
     output_file := output_file j; error := error j;
     error_trace := error_trace j; error_type := error_type j |}.

Definition set_completed (t : string) (n : Z) (path : string) (j : Job) : Job :=
  {| job_id := job_id j; status := "completed"; created_at := created_at j;
     job_maps_url := job_maps_url j; started_at := started_at j;
     completed_at := Some t; total_reviews := Some n;
     output_file := Some path; error := error j;
     error_trace := error_trace j; error_type := error_type j |}.

Definition set_failed (msg : string) (trace : option string) (kind : string)
    (j : Job) : Job :=
  {| job_id := job_id j; status := "failed"; created_at := created_at j;
     job_maps_url := job_maps_url j; started_at := started_at j;
     completed_at := completed_at j; total_reviews := total_reviews j;
     output_file := output_file j; error := Some msg;
     error_trace := match trace with Some t => Some t | None => error_trace j end;
     error_type := Some kind |}.

(** The scraper object [run_scraper_sync] builds: the other arguments of
    [__init__] keep their defaults. *)
Definition job_scraper (url : string) : GoogleMapsScraper :=
  {| maps_url := url; chromedriver_path := CHROMEDRIVER_PATH;
     headless := true; max_scrolls := 500 |}.

(** The [try] block of [run_scraper_sync].  The scraper object is new, so
    its [driver] attribute starts unset. *)
Definition run_scraper_body (env : Env) (id url : string) : ST Server unit :=
  update_job id (set_processing (now_started env));;
  let scraper := job_scraper url in
  reviews_data ← liftR (snd (scrape scraper (session env) init_state));
  (if bool_decide (reviews_data = [])
   then raise (mk_exn ValueError "No reviews were extracted from this location")
   else mret tt);;
  liftR (mkdir env);;
  let output_file := "output/" +:+ id +:+ ".json" in
  open_file env output_file;;
  write_file env output_file reviews_data;;
  update_job id (set_completed (now_completed env)
                   (Z.of_nat (List.length reviews_data)) output_file).

Definition run_scraper_sync (env : Env) (id url : string) : ST Server unit :=
  try_except (run_scraper_body env id url)
    [ (FileNotFoundError,
       fun _ => update_job id
                  (set_failed ("ChromeDriver not found at " +:+ CHROMEDRIVER_PATH)
                              None "chromedriver_not_found"));
      (ValueError,
       fun e => update_job id (set_failed (str e) None "no_reviews"));
      (Exception,
       fun e => update_job id
                  (set_failed (str e) (Some (format_exc env e)) "unknown")) ].

(** [start_scrape]: the fresh token is the environment's. *)
Definition start_scrape (uuid4 now url : string) : ST Server Job :=
  fun σ =>
    let job := {| job_id := uuid4; status := "queued"; created_at := now;
                  job_maps_url := url; started_at := None; completed_at := None;
                  total_reviews := None; output_file := None; error := None;
                  error_trace := None; error_type := None |} in
    ({| jobs_db := <[uuid4 := job]> (jobs_db σ); files := files σ |}, Ok job).

Definition get_job_status (σ : Server) (id : string) : response Job :=
  match jobs_db σ !! id with
  | None => HTTPException 404 "Job not found"
  | Some job => Return job
  end.

(** [download_results]: a file that holds no JSON text makes [json.load]
    raise [JSONDecodeError], a [ValueError] the route does not catch. *)
Definition download_results (σ : Server) (id : string)
  : response (string * list review) :=
  match jobs_db σ !! id with
  | None => HTTPException 404 "Job not found"
  | Some job =>
      if bool_decide (status job ≠ "completed")
      then HTTPException 400 "Job not completed yet"
      else
        match output_file job with
        | None => HTTPException 404 "Output file not found"
        | Some output_path =>
            if negb (truthy output_path) then HTTPException 404 "Output file not found"
            else
              match files σ !! output_path with
              | None => HTTPException 404 "Output file not found"
              | Some (Json data) => Return (id, data)
              | Some Truncated => Uncaught ValueError
              end
        end
  end.

End Main.

(** ** [find_chromedriver] *)

(** What the process sees of its machine: the variable [CHROMEDRIVER_PATH]
    of the environment, the paths that exist and [platform.system()]. *)
Record Machine := {
  getenv_chromedriver : option string;
  path_exists : string → bool;
  system : string
}.

(** The candidate list of a platform; empty for a platform the function
    does not name. *)
Definition chromedriver_paths (system : string) : list string :=
  if String.eqb system "Linux"
  then [ "/usr/bin/chromedriver"; "/usr/local/bin/chromedriver";
         "/snap/bin/chromium.chromedriver" ]
  else if String.eqb system "Darwin"
  then [ "/usr/local/bin/chromedriver"; "/opt/homebrew/bin/chromedriver" ]
  else if String.eqb system "Windows"
  then [ "E:\Downloads\chromedriver-win64\chromedriver-win64\chromedriver.exe";
         "chromedriver.exe" ]
  else [].

(** [for path in paths: if os.path.exists(path): return path]. *)
Fixpoint first_existing (m : Machine) (paths : list string) : option string :=
  match paths with
  | [] => None
  | path :: rest => if path_exists m path then Some path else first_existing m rest
  end.

Definition find_chromedriver (m : Machine) : string :=
  let env_path := getenv_chromedriver m in
  if truthy (or_empty env_path) && path_exists m (or_empty env_path)
  then or_empty env_path
  else
    match first_existing m (chromedriver_paths (system m)) with
    | Some path => path
    | None => "chromedriver"
    end.

(** ** [tests/test_chromedriver.py] *)

(** What the machine answers to the check: the variable of the environment,
    the browser each driver path starts, and the title that browser gives
    once the page is loaded. *)
Record Bench := {
  bench_getenv : option string;
  browser : string → Session;
  title : string → result string
}.

Definition paths_to_try (b : Bench) : list (option string) :=
  [ bench_getenv b;
    Some "chromedriver";
    Some "/usr/local/bin/chromedriver";
    Some "/usr/bin/chromedriver";
    Some "E:\Downloads\chromedriver-win64\chromedriver-win64\chromedriver.exe" ].

(** The [try] block of the loop: start the driver at [path], load a page,
    read its title, quit. *)
Definition launch_and_load (b : Bench) (path : string) : M string :=
  call (NewChrome path) (Chrome (browser b path) path);;
  call (Get "https://www.google.com") (get (browser b path) "https://www.google.com");;
  liftR (title b path);;
  call Quit (quit (browser b path));;
  mret path.

(** The loop over the paths: an empty path is skipped, a path that works is
    returned, and both [except] clauses go on to the next path. *)
Fixpoint try_paths (b : Bench) (paths : list (option string)) : M (option string) :=
  match paths with
  | [] => mret None
  | path :: rest =>
      if negb (truthy (or_empty path)) then try_paths b rest
      else
        found ←
          try_except
            (p ← launch_and_load b (or_empty path); mret (Some p))
            [ (FileNotFoundError, fun _ => mret None);
              (Exception, fun _ => mret None) ];
        match found with
        | Some p => mret (Some p)
        | None => try_paths b rest
        end
  end.

Definition test_chromedriver (b : Bench) : M (option string) :=
  try_paths b (paths_to_try b).

(** ** The life of the server *)

(** The server before any request. *)
Definition initial_server : Server := {| jobs_db := ∅; files := ∅ |}.

(** What changes the server, run by run: a submission, which stores a
    queued job under a token, and the whole background run of a job that
    is in [jobs_db].  The states a run goes through are those of
    [system_step] below. *)
Inductive server_step (CHROMEDRIVER_PATH : string) : Server → Server → Prop :=
| step_submit σ uuid4 now url :
    server_step CHROMEDRIVER_PATH σ (fst (start_scrape uuid4 now url σ))
| step_run σ env id url :
    is_Some (jobs_db σ !! id) →
    server_step CHROMEDRIVER_PATH σ
      (fst (run_scraper_sync CHROMEDRIVER_PATH env id url σ)).

(** The path [run_scraper_sync] writes the records of job [id] to. *)
Definition output_path (id : string) : string := "output/" +:+ id +:+ ".json".

(** ** The server at work *)

(** The routes and the background runs are threads of one process, so a
    route can find the server between any two statements of a run.  A run
    is followed here statement by statement.  Its [stage] is the point it
    has reached in [run_scraper_sync]:
    - [Waiting]: added by [start_scrape], not started;
    - [Marked]: the assignment of ["processing"] to [status] is done;
    - [Scraping]: [started_at] is set; the harvest, the test for an empty
      list, [mkdir] and [open] are next;
    - [Opened]: the output file is open; [json.dump] and the close of the
      file are next;
    - [Written]: the [with] block is left; the update to ["completed"] is
      next;
    - [Raised]: the [try] block raised; the [except] clause for the
      exception is next;
    - [Finished]: the run has returned, or a handler has raised. *)
Inductive stage :=
| Waiting
| Marked
| Scraping
| Opened (reviews_data : list review)
| Written (reviews_data : list review)
| Raised (e : exn)
| Finished.


(** The two assignments that open the [try] block. *)
Definition set_status (s : string) (j : Job) : Job :=
  {| job_id := job_id j; status := s; created_at := created_at j;
     job_maps_url := job_maps_url j; started_at := started_at j;
     completed_at := completed_at j; total_reviews := total_reviews j;
     output_file := output_file j; error := error j;
     error_trace := error_trace j; error_type := error_type j |}.

Definition set_started_at (t : string) (j : Job) : Job :=
  {| job_id := job_id j; status := status j; created_at := created_at j;
     job_maps_url := job_maps_url j; started_at := Some t;
     completed_at := completed_at j; total_reviews := total_reviews j;
     output_file := output_file j; error := error j;
     error_trace := error_trace j; error_type := error_type j |}.

Section Tasks.

Variable CHROMEDRIVER_PATH : string.

(** From the call of [scrape] to the [open] of the output file.  Only the
    [open], which comes last, changes what a route can see. *)
Definition harvest_and_open (env : Env) (id url : string)
  : ST Server (list review) :=
  reviews_data ←
    liftR (snd (scrape (job_scraper CHROMEDRIVER_PATH url) (session env) init_state));
  (if bool_decide (reviews_data = [])
   then raise (mk_exn ValueError "No reviews were extracted from this location")
   else mret tt);;
  liftR (mkdir env);;
  open_file env ("output/" +:+ id +:+ ".json");;
  mret reviews_data.

(** The [except] clauses of [run_scraper_sync], entered with [e]. *)
Definition except_clauses (env : Env) (id : string) (e : exn) : ST Server unit :=
  try_except (raise e)
    [ (FileNotFoundError,
       fun _ => update_job id
                  (set_failed ("ChromeDriver not found at " +:+ CHROMEDRIVER_PATH)
                              None "chromedriver_not_found"));
      (ValueError,
       fun e => update_job id (set_failed (str e) None "no_reviews"));
      (Exception,
       fun e => update_job id
                  (set_failed (str e) (Some (format_exc env e)) "unknown")) ].

(** Where a statement of the [try] block leads: on, or to the handlers. *)
Definition leads_to {A} (r : Server * result A) (on : A → stage) : Server * stage :=
  (fst r, match snd r with Ok a => on a | Raise e => Raised e end).

(** One step of the run of job [id]. *)
Definition task_step (env : Env) (id url : string) (st : stage) (σ : Server)
  : Server * stage :=
  match st with
  | Waiting =>
      leads_to (update_job id (set_status "processing") σ) (fun _ => Marked)
  | Marked =>
      leads_to (update_job id (set_started_at (now_started env)) σ) (fun _ => Scraping)
  | Scraping =>
      leads_to (harvest_and_open env id url σ) Opened
  | Opened reviews_data =>
      leads_to (write_file env ("output/" +:+ id +:+ ".json") reviews_data σ)
        (fun _ => Written reviews_data)
  | Written reviews_data =>
      leads_to (update_job id
                  (set_completed (now_completed env)
                     (Z.of_nat (List.length reviews_data))
                     ("output/" +:+ id +:+ ".json")) σ)
        (fun _ => Finished)
  | Raised e => (fst (except_clauses env id e σ), Finished)
  | Finished => (σ, Finished)
  end.

(** [n] steps of the run of job [id], with nothing in between. *)
Fixpoint task_steps (env : Env) (id url : string) (n : nat) (st : stage) (σ : Server)
  : Server * stage :=
  match n with
  | O => (σ, st)
  | S n =>
      let r := task_step env id url st σ in
      task_steps env id url n (snd r) (fst r)
  end.





End Tasks.


(** ** Notions the properties are stated with *)

Section ScrollNotions.

Variable self : GoogleMapsScraper.
Variable s : Session.

(** What attempt [n] reads, or the exception that ends the loop there. *)
Definition current_at (n : nat) : result (gset string) :=
  scroll_script s n;;
  elements ← scroll_elements s n;
  collect_ids elements ∅.

(** The [current_ids] of attempt [n]. *)
Definition current (n : nat) : gset string :=
  match current_at n with Ok c => c | Raise _ => ∅ end.

(** The union of the [current_ids] of the attempts before [n]. *)
Fixpoint seen_upto (n : nat) : gset string :=
  match n with
  | O => ∅
  | S m => seen_upto m ∪ current m
  end.

(** One attempt: the loop condition holds, the read succeeds, the local
    variables are updated. *)
Inductive attempt : loop_state → loop_state → Prop :=
| attempt_intro st c :
    loop_cond self st = true →
    current_at (scroll_count st) = Ok c →
    attempt st (scroll_update st c).

(** The local variables before the first attempt. *)
Definition loop_init : loop_state :=
  {| seen_ids := ∅; stale_count := 0; scroll_count := 0 |}.

(** The invariant of the loop: [seen_ids] is the union of what the
    attempts made so far have read. *)
Definition seen_inv (st : loop_state) : Prop :=
  seen_ids st = seen_upto (scroll_count st).

(** Attempt [n] reveals an identifier none of the earlier attempts read. *)
Definition grows (n : nat) : Prop := current n ∖ seen_upto n ≠ ∅.

(** The content stops growing after attempt [k], counted from 1: attempt
    [k] is the last one that reveals something ([k = 0]: none does). *)
Definition stops_growing_after (k : nat) : Prop :=
  (0 < k → grows (k - 1)) ∧ ∀ n, k ≤ n → ¬ grows n.

(** No [max_stale] attempts in a row among the first [k] are all without
    growth. *)
Definition no_stall_before (k : nat) : Prop :=
  ∀ j, j + max_stale ≤ k → ∃ n, j ≤ n < j + max_stale ∧ grows n.

(** Every attempt reads its identifiers without an exception. *)
Definition reads_ok : Prop := ∀ n, is_Ok (current_at n) = true.

(** [stale_count] counts the attempts without growth since the last one
    that grew, and [scroll_count] stays within [max_scrolls]. *)
Definition stale_inv (st : loop_state) : Prop :=
  seen_inv st ∧
  stale_count st ≤ scroll_count st ∧
  (∀ i, scroll_count st - stale_count st ≤ i < scroll_count st → ¬ grows i) ∧
  scroll_count st ≤ Z.to_nat (max_scrolls self).

(** The command of one scroll attempt. *)
Definition scroll_command : command :=
  ExecuteScript "arguments[0].scrollTop = arguments[0].scrollHeight".

End ScrollNotions.

(** The record an element of the extraction pass contributes, if any. *)
Definition extracted (company_name phone_number : string) (r : WebElement)
  : option review :=
  match extract_review company_name phone_number r with
  | Ok (Some rv) => Some rv
  | Ok None | Raise _ => None
  end.

(** The identifier an element carries, when it can be read and is not
    empty. *)
Definition element_id (r : WebElement) : option string :=
  match get_attribute r "data-review-id" with
  | Ok o => if truthy (or_empty o) then Some (or_empty o) else None
  | Raise _ => None
  end.

(** A lookup that found nothing. *)
Definition not_found {A} (r : result A) : Prop :=
  ∃ e, r = Raise e ∧ subclass (class_of e) NoSuchElementException = true.

(** A lookup below a review is settled: it found an element whose text can
    be read, or it found nothing. *)
Definition settles (r : result WebElement) : Prop :=
  match r with
  | Ok el => is_Ok (text el) = true
  | Raise e => subclass (class_of e) NoSuchElementException = true
  end.

(** The value of a settled text field. *)
Definition field_value (r : result WebElement) : string :=
  match r with
  | Ok el => match text el with Ok t => strip t | Raise _ => "" end
  | Raise _ => ""
  end.

(** A phone candidate is settled: it found an element whose text and [href]
    can be read, or it found nothing. *)
Definition phone_settles (s : Session) (xpath : string) : Prop :=
  match driver_find_element s xpath with
  | Ok el => is_Ok (text el) = true ∧ is_Ok (get_attribute el "href") = true
  | Raise e => subclass (class_of e) NoSuchElementException = true
  end.

(** What a phone candidate yields when it resolves: the stripped text of the
    element, or, when that is empty, its [href] with every ["tel:"] removed. *)
Definition candidate_value (s : Session) (xpath : string) : option string :=
  match driver_find_element s xpath with
  | Ok el =>
      match text el with
      | Ok t =>
          if truthy (strip t) then Some (strip t)
          else
            match get_attribute el "href" with
            | Ok href => Some (replace "tel:" "" (or_empty href))
            | Raise _ => None
            end
      | Raise _ => None
      end
  | Raise _ => None
  end.

(** The first non-empty value of a list, the empty string when there is
    none. *)
Definition first_nonempty (values : list string) : string :=
  default "" (List.find truthy values).

(** The place name is settled: the wait found an element whose text can be
    read, or it timed out. *)
Definition name_settles (s : Session) : Prop :=
  match wait_presence s name_xpath with
  | Ok el => is_Ok (text el) = true
  | Raise e => subclass (class_of e) TimeoutException = true
  end.

(** The star lookup is settled: it found an element whose [aria-label] can be
    read, or it found nothing. *)
Definition rating_settles (r : WebElement) : Prop :=
  match find_element r star_xpath with
  | Ok el => is_Ok (get_attribute el "aria-label") = true
  | Raise e => subclass (class_of e) NoSuchElementException = true
  end.

(** The value of a settled rating. *)
Definition rating_value (r : WebElement) : option string :=
  match find_element r star_xpath with
  | Ok el =>
      match get_attribute el "aria-label" with
      | Ok label => label
      | Raise _ => Some "No rating"
      end
  | Raise _ => Some "No rating"
  end.

(** A computation that leaves a live driver live and does not quit it: the
    [driver] attribute stays set once it is, and the commands it adds to the
    log have no [Quit] among them. *)
Definition tame {A} (m : M A) : Prop :=
  ∀ σ, (driver σ = true → driver (fst (m σ)) = true) ∧
       ∃ l, log (fst (m σ)) = (log σ ++ l)%list ∧ Quit ∉ l.

(** The state in which a handler of [run_scraper_sync] finds the job when
    the [try] block raised after its first statement. *)
Definition processing (env : Env) (id : string) (σ : Server) (job : Job) : Server :=
  {| jobs_db := <[id := set_processing (now_started env) job]> (jobs_db σ);
     files := files σ |}.

(** The command that clicks an element through a script. *)
Definition click_command : command := ExecuteScript "arguments[0].click();".

(** A tab candidate timed out: the wait for it did, or the click on the
    element it found did. *)
Definition tab_timed_out (s : Session) (xpath : string) : Prop :=
  match wait_clickable s xpath with
  | Ok tab =>
      ∃ e, script_click tab = Raise e ∧
           subclass (class_of e) TimeoutException = true
  | Raise e => subclass (class_of e) TimeoutException = true
  end.

(** What the [except] clause that matches [e] writes into the job. *)
Definition recorded_failure (CHROMEDRIVER_PATH : string) (env : Env) (e : exn)
  : Job → Job :=
  if bool_decide (class_of e = FileNotFoundError)
  then set_failed ("ChromeDriver not found at " +:+ CHROMEDRIVER_PATH) None
         "chromedriver_not_found"
  else if bool_decide (class_of e = ValueError)
  then set_failed (str e) None "no_reviews"
  else set_failed (str e) (Some (format_exc env e)) "unknown".

(** The server after a run of job [id] that stored [reviews]. *)
Definition stored (env : Env) (id : string) (σ : Server) (job : Job)
    (reviews : list review) : Server :=
  {| jobs_db :=
       <[id := set_completed (now_completed env) (Z.of_nat (List.length reviews))
                 (output_path id) (set_processing (now_started env) job)]> (jobs_db σ);
     files := <[output_path id := Json reviews]> (files σ) |}.

(** The [try] block of a run gets as far as the [with] statement and opens
    the output file. *)
Definition file_opened (CHROMEDRIVER_PATH : string) (env : Env) (url id : string)
  : bool :=
  match snd (scrape (job_scraper CHROMEDRIVER_PATH url) (session env) init_state) with
  | Ok reviews_data =>
      negb (bool_decide (reviews_data = [])) && is_Ok (mkdir env)
      && is_Ok (open_write env (output_path id))
  | Raise _ => false
  end.

(** The files after a run of job [id] that stored nothing: as they were, or
    with the output file of the job cut short when the run had opened it. *)
Definition files_after_failure (CHROMEDRIVER_PATH : string) (env : Env)
    (url id : string) (σ : Server) : gmap string content :=
  if file_opened CHROMEDRIVER_PATH env url id
  then <[output_path id := Truncated]> (files σ)
  else files σ.

(** The server after a run of job [id] that failed with [e]. *)
Definition failed_with (CHROMEDRIVER_PATH : string) (env : Env) (url id : string)
    (σ : Server) (job : Job) (e : exn) : Server :=
  {| jobs_db :=
       <[id := recorded_failure CHROMEDRIVER_PATH env e
                 (set_processing (now_started env) job)]> (jobs_db σ);
     files := files_after_failure CHROMEDRIVER_PATH env url id σ |}.

(** How the [try] block of a run goes for a job that is in [jobs_db]: it
    stores the records, or it raises at the harvest, at the test for an
    empty list, at [mkdir], at [open], or at [json.dump] and the close of
    the file. *)
Definition body_outcome (CHROMEDRIVER_PATH : string) (env : Env) (url id : string)
  : result (list review) :=
  reviews_data ← snd (scrape (job_scraper CHROMEDRIVER_PATH url) (session env) init_state);
  (if bool_decide (reviews_data = [])
   then Raise (mk_exn ValueError "No reviews were extracted from this location")
   else Ok tt);;
  mkdir env;;
  open_write env (output_path id);;
  dump env (output_path id);;
  Ok reviews_data.



(** The page the check loads. *)
Definition check_url : string := "https://www.google.com".

(** The driver at [path] passes the check: it starts, loads the page, gives
    its title and quits. *)
Definition path_works (b : Bench) (path : string) : Prop :=
  Chrome (browser b path) path = Ok tt ∧
  get (browser b path) check_url = Ok tt ∧
  is_Ok (title b path) = true ∧
  quit (browser b path) = Ok tt.

(** An entry of the list of paths is tried and passes the check. *)
Definition entry_works (b : Bench) (path : option string) : Prop :=
  truthy (or_empty path) = true ∧ path_works b (or_empty path).

(** ** Sample sessions *)

Module Examples.

Definition no_such_element {A} : result A :=
  Raise (mk_exn NoSuchElementException "no such element").

(** An element with a text and attributes, and nothing below it. *)
Definition leaf (t : string) (attrs : list (string * string)) : WebElement :=
  {| text := Ok t;
     get_attribute := fun a => Ok (snd <$> List.find (fun kv => String.eqb (fst kv) a) attrs);
     click := Ok tt;
     script_click := Ok tt;
     find_element := fun _ => no_such_element |}.

(** A review [div] with its identifier and the elements found below it. *)
Definition review_div (id : string) (children : list (string * WebElement))
  : WebElement :=
  {| text := Ok "";
     get_attribute := fun a =>
       Ok (if String.eqb a "data-review-id" then Some id else None);
     click := Ok tt;
     script_click := Ok tt;
     find_element := fun xp =>
       match List.find (fun kv => String.eqb (fst kv) xp) children with
       | Some kv => Ok (snd kv)
       | None => no_such_element
       end |}.

(** A place page: no cookie banner, a name, no phone, a reviews tab, the
    review identifiers [schedule n] at scroll attempt [n], and [reviews] at
    the extraction pass. *)
Definition page (schedule : nat → list string) (reviews : list WebElement)
  : Session :=
  {| Chrome := fun _ => Ok tt;
     execute_cdp_cmd := Ok tt;
     webdriver_script := Ok tt;
     get := fun _ => Ok tt;
     driver_find_element := fun _ => no_such_element;
     wait_presence := fun _ => Ok (leaf "Cafe Luna " []);
     wait_clickable := fun _ => Ok (leaf "Reviews" []);
     scroll_script := fun _ => Ok tt;
     scroll_elements := fun n => Ok ((fun id => review_div id []) <$> schedule n);
     see_more_buttons := Ok [];
     review_elements := Ok reviews;
     quit := Ok tt |}.

Definition scraper (limit : Z) : GoogleMapsScraper :=
  {| maps_url := "https://maps.example/place/X";
     chromedriver_path := "/usr/bin/chromedriver";
     headless := true;
     max_scrolls := limit |}.

(** Three reviews that show up one per attempt, then nothing new. *)
Definition three_then_still (n : nat) : list string :=
  take (S n) ["r1"; "r2"; "r3"].

(** One review, a long stall, and a second review at the eighth attempt. *)
Definition late_arrival (n : nat) : list string :=
  if n <? 7 then ["r1"] else ["r1"; "r2"].

(** A new review at every attempt: attempt [n] shows [n + 1] of them. *)
Fixpoint tally (n : nat) : string :=
  match n with
  | O => "r"
  | S m => String "i" (tally m)
  end.

Definition ever_growing (n : nat) : list string := tally <$> seq 0 (S n).

(** A review with every field, and the same identifier on an outer and an
    inner [div], the second without fields. *)
Definition full_review : WebElement :=
  review_div "r1"
    [ (star_xpath, leaf "" [("aria-label", "5 stars")]);
      (text_xpath, leaf " Great coffee. " []);
      (reviewer_xpath, leaf "Ada" []);
      (date_xpath, leaf "2 weeks ago" []) ].

Definition bare_review : WebElement := review_div "r1" [].

Definition twin_reviews : list WebElement := [full_review; bare_review].

(** The records the two elements give on [page]. *)
Definition full_record : review :=
  {| review_id := "r1"; reviewer := "Ada"; rating := Some "5 stars";
     review_text := "Great coffee."; date := "2 weeks ago";
     company_name := "Cafe Luna"; phone_number := "" |}.

Definition bare_record : review :=
  {| review_id := "r1"; reviewer := ""; rating := Some "No rating";
     review_text := ""; date := "";
     company_name := "Cafe Luna"; phone_number := "" |}.

(** A page like [page three_then_still [full_review]] whose first phone
    candidate finds a button without text or link and whose last one finds
    a telephone link. *)
Definition phone_lookup (xpath : string) : result WebElement :=
  if String.eqb xpath ("//button[contains(@aria-label, " +:+ q "Phone" +:+ ")]")
  then Ok (leaf "  " [])
  else if String.eqb xpath ("//a[contains(@href," +:+ q "tel:" +:+ ")]")
  then Ok (leaf "" [("href", "tel:+1 555 0100")])
  else no_such_element.

Definition phone_page : Session :=
  {| Chrome := fun _ => Ok tt;
     execute_cdp_cmd := Ok tt;
     webdriver_script := Ok tt;
     get := fun _ => Ok tt;
     driver_find_element := phone_lookup;
     wait_presence := fun _ => Ok (leaf "Cafe Luna " []);
     wait_clickable := fun _ => Ok (leaf "Reviews" []);
     scroll_script := fun _ => Ok tt;
     scroll_elements := fun n => Ok ((fun id => review_div id []) <$> three_then_still n);
     see_more_buttons := Ok [];
     review_elements := Ok [full_review];
     quit := Ok tt |}.

(** A page whose phone button is replaced by the page between the lookup
    and the read of its text. *)
Definition stale_button : WebElement :=
  {| text := Raise (mk_exn StaleElementReferenceException
                      "stale element reference: element is not attached to the page document");
     get_attribute := fun _ => Ok None;
     click := Ok tt;
     script_click := Ok tt;
     find_element := fun _ => no_such_element |}.

Definition stale_phone_page : Session :=
  {| Chrome := fun _ => Ok tt;
     execute_cdp_cmd := Ok tt;
     webdriver_script := Ok tt;
     get := fun _ => Ok tt;
     driver_find_element := fun _ => Ok stale_button;
     wait_presence := fun _ => Ok (leaf "Cafe Luna " []);
     wait_clickable := fun _ => Ok (leaf "Reviews" []);
     scroll_script := fun _ => Ok tt;
     scroll_elements := fun n => Ok ((fun id => review_div id []) <$> three_then_still n);
     see_more_buttons := Ok [];
     review_elements := Ok [full_review];
     quit := Ok tt |}.

(** A button whose click is intercepted by an overlay. *)
Definition covered_button : WebElement :=
  {| text := Ok "See more";
     get_attribute := fun _ => Ok None;
     click := Raise (mk_exn WebDriverException "element click intercepted");
     script_click := Raise (mk_exn WebDriverException "element click intercepted");
     find_element := fun _ => no_such_element |}.

(** A page with three "See more" buttons, the second one covered, and a page
    on which no reviews tab ever becomes clickable. *)
Definition see_more_page : Session :=
  {| Chrome := fun _ => Ok tt;
     execute_cdp_cmd := Ok tt;
     webdriver_script := Ok tt;
     get := fun _ => Ok tt;
     driver_find_element := fun _ => no_such_element;
     wait_presence := fun _ => Ok (leaf "Cafe Luna " []);
     wait_clickable := fun _ => Ok (leaf "Reviews" []);
     scroll_script := fun _ => Ok tt;
     scroll_elements := fun n => Ok ((fun id => review_div id []) <$> three_then_still n);
     see_more_buttons := Ok [leaf "See more" []; covered_button; leaf "See more" []];
     review_elements := Ok [full_review];
     quit := Ok tt |}.

Definition timed_out {A} : result A :=
  Raise (mk_exn TimeoutException "Message: ").

Definition no_tab_page : Session :=
  {| Chrome := fun _ => Ok tt;
     execute_cdp_cmd := Ok tt;
     webdriver_script := Ok tt;
     get := fun _ => Ok tt;
     driver_find_element := fun _ => no_such_element;
     wait_presence := fun _ => Ok (leaf "Cafe Luna " []);
     wait_clickable := fun _ => timed_out;
     scroll_script := fun _ => Ok tt;
     scroll_elements := fun n => Ok ((fun id => review_div id []) <$> three_then_still n);
     see_more_buttons := Ok [];
     review_elements := Ok [full_review];
     quit := Ok tt |}.

(** A page whose reviews tab answers to the second candidate only. *)
Definition second_tab_page : Session :=
  {| Chrome := fun _ => Ok tt;
     execute_cdp_cmd := Ok tt;
     webdriver_script := Ok tt;
     get := fun _ => Ok tt;
     driver_find_element := fun _ => no_such_element;
     wait_presence := fun _ => Ok (leaf "Cafe Luna " []);
     wait_clickable := fun xpath =>
       if String.eqb xpath ("//button[contains(text()," +:+ q "Reviews" +:+ ")]")
       then Ok (leaf "Reviews" [])
       else timed_out;
     scroll_script := fun _ => Ok tt;
     scroll_elements := fun n => Ok ((fun id => review_div id []) <$> three_then_still n);
     see_more_buttons := Ok [];
     review_elements := Ok [full_review];
     quit := Ok tt |}.

(** A page like [page three_then_still [full_review]] whose browser has
    crashed by the time [quit] is called. *)
Definition browser_gone : exn :=
  mk_exn WebDriverException "chrome not reachable".

Definition quit_fails_page : Session :=
  {| Chrome := fun _ => Ok tt;
     execute_cdp_cmd := Ok tt;
     webdriver_script := Ok tt;
     get := fun _ => Ok tt;
     driver_find_element := fun _ => no_such_element;
     wait_presence := fun _ => Ok (leaf "Cafe Luna " []);
     wait_clickable := fun _ => Ok (leaf "Reviews" []);
     scroll_script := fun _ => Ok tt;
     scroll_elements := fun n => Ok ((fun id => review_div id []) <$> three_then_still n);
     see_more_buttons := Ok [];
     review_elements := Ok [full_review];
     quit := Raise browser_gone |}.

(** A review element that the page replaces before its identifier is read,
    and one whose identifier is empty. *)
Definition stale_review : WebElement :=
  {| text := Ok "";
     get_attribute := fun _ =>
       Raise (mk_exn StaleElementReferenceException
                "stale element reference: element is not attached to the page document");
     click := Ok tt;
     script_click := Ok tt;
     find_element := fun _ => no_such_element |}.

Definition second_review : WebElement :=
  review_div "r2" [ (text_xpath, leaf "Too loud." []) ].

Definition second_record : review :=
  {| review_id := "r2"; reviewer := ""; rating := Some "No rating";
     review_text := "Too loud."; date := "";
     company_name := "Cafe Luna"; phone_number := "" |}.

(** A third review, with a reviewer and a date only. *)
Definition third_review : WebElement :=
  review_div "r3" [ (reviewer_xpath, leaf "Grace" []); (date_xpath, leaf "a year ago" []) ].

Definition third_record : review :=
  {| review_id := "r3"; reviewer := "Grace"; rating := Some "No rating";
     review_text := ""; date := "a year ago";
     company_name := "Cafe Luna"; phone_number := "" |}.

(** A page set with Unicode white space: ideographic spaces around the
    name, a phone button whose text is a no-break space, and a telephone
    link whose [href] has a blank after the scheme and an em space at its
    end. *)
Definition wide_space_lookup (xpath : string) : result WebElement :=
  if String.eqb xpath ("//button[contains(@aria-label, " +:+ q "Phone" +:+ ")]")
  then Ok (leaf (utf8 0xA0) [])
  else if String.eqb xpath ("//a[contains(@href," +:+ q "tel:" +:+ ")]")
  then Ok (leaf "" [("href", "tel: +1 555 0100" +:+ utf8 0x2003)])
  else no_such_element.

Definition wide_space_page : Session :=
  {| Chrome := fun _ => Ok tt;
     execute_cdp_cmd := Ok tt;
     webdriver_script := Ok tt;
     get := fun _ => Ok tt;
     driver_find_element := wide_space_lookup;
     wait_presence := fun _ => Ok (leaf (utf8 0x3000 +:+ "Cafe Luna" +:+ utf8 0x3000) []);
     wait_clickable := fun _ => Ok (leaf "Reviews" []);
     scroll_script := fun _ => Ok tt;
     scroll_elements := fun n => Ok ((fun id => review_div id []) <$> three_then_still n);
     see_more_buttons := Ok [];
     review_elements := Ok [full_review];
     quit := Ok tt |}.

(** A review whose text ends with a line separator and whose date is a
    narrow no-break space, and its record. *)
Definition wide_review : WebElement :=
  review_div "r4"
    [ (text_xpath, leaf (utf8 0x2003 +:+ "Great coffee." +:+ utf8 0x2028) []);
      (date_xpath, leaf (utf8 0x202F) []) ].

Definition wide_record : review :=
  {| review_id := "r4"; reviewer := ""; rating := Some "No rating";
     review_text := "Great coffee."; date := "";
     company_name := "Cafe Luna"; phone_number := "" |}.



(** The commands of a harvest of [page] by [scraper] that scrolls [n]
    times. *)
Definition harvest_log (n : nat) : list command :=
  [ NewChrome "/usr/bin/chromedriver"; CdpCmd;
    ExecuteScript "Object.defineProperty(navigator, 'webdriver', {get: () => undefined})";
    Get "https://maps.example/place/X";
    ExecuteScript "arguments[0].click();" ]
  ++ replicate n scroll_command ++ [Quit].

(** Eight attempts that each show a new review, then nothing new. *)
Definition eight_then_still (n : nat) : list string := ever_growing (n `min` 7).

(** A machine without chromedriver: creating the driver raises
    [FileNotFoundError]. *)
Definition no_chromedriver : Session :=
  {| Chrome := fun path =>
       Raise (mk_exn FileNotFoundError
                ("[Errno 2] No such file or directory: '" +:+ path +:+ "'"));
     execute_cdp_cmd := Ok tt;
     webdriver_script := Ok tt;
     get := fun _ => Ok tt;
     driver_find_element := fun _ => no_such_element;
     wait_presence := fun _ => Ok (leaf "Cafe Luna " []);
     wait_clickable := fun _ => Ok (leaf "Reviews" []);
     scroll_script := fun _ => Ok tt;
     scroll_elements := fun _ => Ok [];
     see_more_buttons := Ok [];
     review_elements := Ok [];
     quit := Ok tt |}.

(** The environment of a background run on session [s]. *)
Definition background (s : Session) : Env :=
  {| session := s;
     now_started := "2024-05-01T10:00:00";
     now_completed := "2024-05-01T10:05:00";
     mkdir := Ok tt;
     open_write := fun _ => Ok tt;
     dump := fun _ => Ok tt;
     format_exc := fun e => "Traceback (most recent call last): " +:+ str e |}.

Definition place_url : string := "https://maps.example/place/X".

(** The server after one submission, and after the background run of that
    job on a page. *)
Definition queued_server : Server :=
  fst (start_scrape "job-1" "2024-05-01T09:59:59" place_url
         {| jobs_db := ∅; files := ∅ |}).

Definition after_run (s : Session) : Server :=
  fst (run_scraper_sync "/usr/bin/chromedriver" (background s) "job-1" place_url
         queued_server).

(** A Linux machine whose variable names a file that is gone and whose
    driver is under [/usr/local/bin]. *)
Definition linux_box : Machine :=
  {| getenv_chromedriver := Some "/opt/old/chromedriver";
     path_exists := fun path => String.eqb path "/usr/local/bin/chromedriver";
     system := "Linux" |}.

(** A bench without the variable: no driver on the search path, one under
    [/usr/local/bin] that starts a browser without network, and a working
    one under [/usr/bin]. *)
Definition offline_page : Session :=
  {| Chrome := fun _ => Ok tt;
     execute_cdp_cmd := Ok tt;
     webdriver_script := Ok tt;
     get := fun _ => Raise (mk_exn WebDriverException "net::ERR_INTERNET_DISCONNECTED");
     driver_find_element := fun _ => no_such_element;
     wait_presence := fun _ => timed_out;
     wait_clickable := fun _ => timed_out;
     scroll_script := fun _ => Ok tt;
     scroll_elements := fun _ => Ok [];
     see_more_buttons := Ok [];
     review_elements := Ok [];
     quit := Ok tt |}.

Definition work_bench : Bench :=
  {| bench_getenv := None;
     browser := fun path =>
       if String.eqb path "/usr/bin/chromedriver" then page three_then_still []
       else if String.eqb path "/usr/local/bin/chromedriver" then offline_page
       else no_chromedriver;
     title := fun _ => Ok "Google" |}.

(** A run whose [output] directory vanishes before the file is opened. *)
Definition output_dir_gone (s : Session) : Env :=
  {| session := s;
     now_started := "2024-05-01T10:00:00";
     now_completed := "2024-05-01T10:05:00";
     mkdir := Ok tt;
     open_write := fun path =>
       Raise (mk_exn FileNotFoundError
                ("[Errno 2] No such file or directory: '" +:+ path +:+ "'"));
     dump := fun _ => Ok tt;
     format_exc := fun e => "Traceback (most recent call last): " +:+ str e |}.

(** A run on a disk that fills up while the records are written. *)
Definition disk_full (s : Session) : Env :=
  {| session := s;
     now_started := "2024-05-01T10:00:00";
     now_completed := "2024-05-01T10:05:00";
     mkdir := Ok tt;
     open_write := fun _ => Ok tt;
     dump := fun _ => Raise (mk_exn OSError "[Errno 28] No space left on device");
     format_exc := fun e => "Traceback (most recent call last): " +:+ str e |}.


(** The server after a successful run, once its output file is gone. *)
Definition output_removed : Server :=
  {| jobs_db := jobs_db (after_run (page three_then_still twin_reviews));
     files := ∅ |}.

End Examples.

(** * Properties *)

Import Examples.

#[local] Arguments strip : simpl never.
#[local] Arguments replace : simpl never.

(** ** The scroll-and-collect loop *)

Section ScrollLoop.

Variable self : GoogleMapsScraper.
Variable s : Session.

Lemma scroll_observe_eq n σ :
  scroll_observe s n σ =
    ({| driver := driver σ; log := log σ ++ [scroll_command] |}, current_at s n).
Proof.
  unfold scroll_observe, current_at, call, liftR, mbind, ST_bind, result_bind.
  destruct (scroll_script s n); [|done].
  destruct (scroll_elements s n); [|done].
  by destruct (collect_ids _ _).
Qed.

(** The rule of the [while]: what every attempt preserves holds at the
    exit, where the loop condition has failed. *)
Lemma scroll_loop_rule (P : loop_state → Prop) :
  (∀ st c, P st → attempt self s st (scroll_update st c) →
           loop_cond self st = true → current_at s (scroll_count st) = Ok c →
           P (scroll_update st c)) →
  ∀ st σ σ' st',
    P st → scroll_loop self s st σ = (σ', Ok st') →
    P st' ∧ loop_cond self st' = false.
Proof.
  intros Hstep st σ.
  funelim (scroll_loop self s st σ).
  all: intros σ1 st1 HP Hrun.
  - injection Hrun as <- <-. done.
  - rewrite scroll_observe_eq in Heq. injection Heq as _ Hcur.
    eapply H; [exact Hstep| |exact Hrun].
    apply Hstep; [done|by constructor|done|done].
  - discriminate Hrun.
Qed.

(** The loop returns whenever the reads it makes succeed. *)
Lemma scroll_loop_total :
  (∀ n, (Z.of_nat n < max_scrolls self)%Z → is_Ok (current_at s n) = true) →
  ∀ st σ, ∃ σ' st', scroll_loop self s st σ = (σ', Ok st').
Proof.
  intros Hok st σ.
  funelim (scroll_loop self s st σ).
  - eauto.
  - eauto.
  - rewrite scroll_observe_eq in Heq. injection Heq as _ Hcur.
    pose proof Hcond as Hlt. unfold loop_cond in Hlt.
    apply andb_true_iff in Hlt as [_ Hlt].
    apply Z.ltb_lt in Hlt. specialize (Hok _ Hlt).
    rewrite Hcur in Hok. discriminate Hok.
Qed.

(** Each attempt logs one scroll command, and nothing else changes the
    state. *)
Lemma scroll_loop_log st σ σ' st' :
  scroll_loop self s st σ = (σ', Ok st') →
  driver σ' = driver σ ∧
  log σ' = (log σ ++ replicate (scroll_count st' - scroll_count st) scroll_command)%list ∧
  scroll_count st ≤ scroll_count st'.
Proof.
  funelim (scroll_loop self s st σ).
  all: intros Hrun.
  - injection Hrun as <- <-. rewrite Nat.sub_diag. simpl.
    by rewrite app_nil_r.
  - rewrite scroll_observe_eq in Heq. injection Heq as <- Hcur.
    destruct (H _ _ Hrun) as (Hd & Hl & Hle). simpl in *.
    assert (scroll_count (scroll_update st current_ids) = S (scroll_count st)) as Hn.
    { unfold scroll_update. case_bool_decide; simpl; lia. }
    rewrite Hn in *. split; [done|]. split; [|lia].
    rewrite Hl, <- app_assoc. f_equal.
    replace (scroll_count st' - scroll_count st)
      with (S (scroll_count st' - S (scroll_count st))) by lia.
    done.
  - discriminate Hrun.
Qed.

(** The states of a run are those the attempts reach. *)
Lemma scroll_loop_attempts st σ σ' st' :
  scroll_loop self s st σ = (σ', Ok st') → rtc (attempt self s) st st'.
Proof.
  intros Hrun.
  apply (scroll_loop_rule (rtc (attempt self s) st)) in Hrun as [? _]; [done| |done].
  intros st1 c Hreach Hatt _ _. by eapply rtc_r.
Qed.

Lemma attempt_scroll_count st st' :
  attempt self s st st' → scroll_count st' = S (scroll_count st).
Proof.
  intros [st0 c _ _]. unfold scroll_update. case_bool_decide; simpl; lia.
Qed.

Lemma attempt_seen_subseteq st st' :
  attempt self s st st' → seen_ids st ⊆ seen_ids st'.
Proof.
  intros [st0 c _ _]. unfold scroll_update. case_bool_decide; simpl; set_solver.
Qed.

(** An attempt adds exactly what it read. *)
Lemma scroll_update_seen st c :
  seen_ids (scroll_update st c) = seen_ids st ∪ c.
Proof.
  unfold scroll_update. case_bool_decide as Hnew; simpl.
  - apply set_eq. intros x.
    destruct (decide (x ∈ seen_ids st)); set_solver.
  - apply set_eq. intros x.
    destruct (decide (x ∈ seen_ids st)); set_solver.
Qed.

Lemma seen_inv_attempt st st' :
  seen_inv s st → attempt self s st st' → seen_inv s st'.
Proof.
  intros Hinv Hatt. pose proof (attempt_scroll_count _ _ Hatt) as Hn.
  destruct Hatt as [st c _ Hcur]. unfold seen_inv in *.
  rewrite Hn, scroll_update_seen, Hinv. simpl.
  unfold current. by rewrite Hcur.
Qed.

Lemma seen_inv_reach st st' :
  seen_inv s st → rtc (attempt self s) st st' → seen_inv s st'.
Proof. intros Hinv Hreach. induction Hreach; eauto using seen_inv_attempt. Qed.

Lemma seen_upto_mono n m : n ≤ m → seen_upto s n ⊆ seen_upto s m.
Proof. induction 1; simpl; set_solver. Qed.

Lemma scroll_reviews_eq σ :
  _scroll_reviews self s σ =
    match wait_presence s ("//div[contains(@class," +:+ q "m6QErb"
                             +:+ ") and contains(@class," +:+ q "DxyBCb" +:+ ")]") with
    | Ok _ =>
        match scroll_loop self s loop_init σ with
        | (σ', Ok st) => (σ', Ok (seen_ids st))
        | (σ', Raise e) => (σ', Raise e)
        end
    | Raise e => (σ, Raise e)
    end.
Proof.
  unfold _scroll_reviews, liftR, mbind, ST_bind, mret, ST_ret, loop_init.
  destruct (wait_presence s _); [|done].
  by destruct (scroll_loop _ _ _ _) as [? []].
Qed.

(** *** When the loop stops *)

Lemma attempt_grows st c :
  seen_inv s st → current_at s (scroll_count st) = Ok c →
  (c ∖ seen_ids st ≠ ∅ ↔ grows s (scroll_count st)).
Proof.
  intros Hinv Hcur. unfold grows, current. by rewrite Hcur, Hinv.
Qed.

Lemma loop_cond_true st :
  loop_cond self st = true →
  stale_count st < max_stale ∧ scroll_count st < Z.to_nat (max_scrolls self).
Proof.
  unfold loop_cond. intros [H1 H2]%andb_true_iff.
  apply Nat.ltb_lt in H1. apply Z.ltb_lt in H2. lia.
Qed.

Lemma loop_cond_false st :
  loop_cond self st = false →
  max_stale ≤ stale_count st ∨ Z.to_nat (max_scrolls self) ≤ scroll_count st.
Proof.
  unfold loop_cond. intros [H1|H2]%andb_false_iff.
  - apply Nat.ltb_ge in H1. by left.
  - apply Z.ltb_ge in H2. right. lia.
Qed.

Lemma stale_inv_attempt st c :
  stale_inv self s st → loop_cond self st = true →
  current_at s (scroll_count st) = Ok c →
  stale_inv self s (scroll_update st c) ∧
  (grows s (scroll_count st) → stale_count (scroll_update st c) = 0) ∧
  (¬ grows s (scroll_count st) →
   stale_count (scroll_update st c) = S (stale_count st)) ∧
  scroll_count (scroll_update st c) = S (scroll_count st).
Proof.
  intros (Hseen & Hle & Htrail & Hmax) Hcond Hcur.
  pose proof (loop_cond_true _ Hcond) as [_ Hlt].
  pose proof (attempt_grows _ _ Hseen Hcur) as Hg.
  assert (Hatt : attempt self s st (scroll_update st c)) by by constructor.
  pose proof (seen_inv_attempt _ _ Hseen Hatt) as Hseen'.
  unfold stale_inv. unfold scroll_update in *.
  case_bool_decide as Hnew; simpl in *.
  - apply Hg in Hnew. repeat split; try done; lia.
  - assert (¬ grows s (scroll_count st)) as Hng.
    { intros Hgr. apply Hg in Hgr. by apply Hgr. }
    repeat split; try done; try lia.
    intros i Hi. destruct (decide (i = scroll_count st)) as [->|]; [done|].
    apply Htrail. lia.
Qed.

Lemma stale_inv_init : stale_inv self s loop_init.
Proof. unfold stale_inv, seen_inv. simpl. repeat split; try done; lia. Qed.

(** A full stale streak below [k] contradicts [no_stall_before k]. *)
Lemma no_stall_stale k st :
  no_stall_before s k → stale_inv self s st →
  scroll_count st ≤ k → stale_count st < max_stale.
Proof.
  intros Hns (_ & Hle & Htrail & _) Hk.
  destruct (decide (stale_count st < max_stale)) as [|Hge]; [done|].
  destruct (Hns (scroll_count st - max_stale)) as (n & Hn & Hg); [lia|].
  exfalso. apply (Htrail n); [lia|done].
Qed.

(** The loop on a session whose content stops growing after attempt [k]. *)
Lemma scroll_loop_stops_after k σ :
  reads_ok s → stops_growing_after s k → no_stall_before s k →
  ∃ σ' st',
    scroll_loop self s loop_init σ = (σ', Ok st') ∧
    scroll_count st' = Nat.min (k + max_stale) (Z.to_nat (max_scrolls self)).
Proof.
  intros Hok [Hlast Hstop] Hns.
  destruct (scroll_loop_total (fun n _ => Hok n) loop_init σ) as (σ' & st' & Hrun).
  exists σ', st'. split; [done|].
  pose (P := fun st : loop_state =>
    stale_inv self s st ∧
    (k ≤ scroll_count st → stale_count st = scroll_count st - k) ∧
    scroll_count st ≤ k + max_stale).
  assert (P st' ∧ loop_cond self st' = false) as [(Hinv & Hk & Hle) Hexit].
  { apply (scroll_loop_rule P) with (st := loop_init) (σ := σ) (σ' := σ');
      [|split; [apply stale_inv_init|simpl; split; lia]|done].
    intros st c (Hinv & Hk & Hle) _ Hcond Hcur.
    destruct (stale_inv_attempt _ _ Hinv Hcond Hcur) as (Hinv' & Hg & Hng & Hn).
    pose proof (loop_cond_true _ Hcond) as [Hst _].
    split; [done|]. rewrite Hn.
    destruct (decide (grows s (scroll_count st))) as [Hgr|Hngr].
    - rewrite (Hg Hgr).
      assert (scroll_count st < k).
      { destruct (decide (scroll_count st < k)); [done|].
        exfalso. apply (Hstop (scroll_count st)); [lia|done]. }
      split; lia.
    - rewrite (Hng Hngr).
      destruct (decide (k ≤ scroll_count st)) as [Hafter|Hbefore].
      + specialize (Hk Hafter). split; lia.
      + split; [|lia]. intros Hk'.
        exfalso. apply Hngr.
        replace (scroll_count st) with (k - 1) by lia. apply Hlast. lia. }
  pose proof Hinv as (_ & _ & _ & Hmax).
  apply loop_cond_false in Hexit as [Hstale|Hlimit]; [|lia].
  destruct (decide (scroll_count st' ≤ k)) as [Hbelow|Habove].
  - pose proof (no_stall_stale _ _ Hns Hinv Hbelow). lia.
  - lia.
Qed.

(** The loop on a session whose content never settles within
    [max_scrolls] attempts. *)
Lemma scroll_loop_never_settles σ :
  reads_ok s → no_stall_before s (Z.to_nat (max_scrolls self)) →
  ∃ σ' st',
    scroll_loop self s loop_init σ = (σ', Ok st') ∧
    scroll_count st' = Z.to_nat (max_scrolls self).
Proof.
  intros Hok Hns.
  destruct (scroll_loop_total (fun n _ => Hok n) loop_init σ) as (σ' & st' & Hrun).
  exists σ', st'. split; [done|].
  assert (stale_inv self s st' ∧ loop_cond self st' = false) as [Hinv Hexit].
  { apply (scroll_loop_rule (stale_inv self s))
      with (st := loop_init) (σ := σ) (σ' := σ'); [|apply stale_inv_init|done].
    intros st c Hinv _ Hcond Hcur.
    by destruct (stale_inv_attempt _ _ Hinv Hcond Hcur) as (Hinv' & _). }
  pose proof Hinv as (_ & _ & _ & Hmax).
  apply loop_cond_false in Hexit as [Hstale|Hlimit]; [|lia].
  pose proof (no_stall_stale _ _ Hns Hinv Hmax). lia.
Qed.

End ScrollLoop.

(** C1. Whatever the session answers, when [_scroll_reviews] returns a set
    of identifiers, that set is the [seen_ids] of the last state of the
    loop, it is the union of the [current_ids] read by the attempts the loop
    made, and the log shows one scroll command per attempt.  Across the
    attempts [seen_ids] never loses an identifier: at every attempt the loop
    can make it grows or stays, in content and in size, and it is the union
    of what has been read so far. *)
Theorem scroll_reviews_seen_union self s σ σ' ids :
  _scroll_reviews self s σ = (σ', Ok ids) →
  ∃ st',
    rtc (attempt self s) loop_init st' ∧
    ids = seen_ids st' ∧
    ids = seen_upto s (scroll_count st') ∧
    log σ' = (log σ ++ replicate (scroll_count st') scroll_command)%list ∧
    (∀ n, n < scroll_count st' → current s n ⊆ ids) ∧
    (∀ a b, rtc (attempt self s) loop_init a → attempt self s a b →
            seen_ids a ⊆ seen_ids b ∧
            size (seen_ids a) ≤ size (seen_ids b) ∧
            seen_ids a = seen_upto s (scroll_count a) ∧
            seen_ids b = seen_upto s (scroll_count b)).
Proof.
  rewrite scroll_reviews_eq. destruct (wait_presence s _); [|done].
  destruct (scroll_loop self s loop_init σ) as [σ1 [st'|]] eqn:Hrun; [|done].
  intros [= <- <-]. exists st'.
  assert (seen_inv s loop_init) as Hinit by done.
  pose proof (scroll_loop_attempts _ _ _ _ _ _ Hrun) as Hreach.
  pose proof (seen_inv_reach _ _ _ _ Hinit Hreach) as Hseen.
  destruct (scroll_loop_log _ _ _ _ _ _ Hrun) as (_ & Hlog & _).
  simpl in Hlog. rewrite Nat.sub_0_r in Hlog.
  split_and!; try done.
  - intros n Hn. rewrite Hseen.
    etrans; [|apply (seen_upto_mono s (S n)); lia]. simpl. set_solver.
  - intros st1 st2 Hst1 Hst2.
    pose proof (seen_inv_reach _ _ _ _ Hinit Hst1) as Hseen1.
    split_and!.
    + by apply (attempt_seen_subseteq self s).
    + apply subseteq_size. by apply (attempt_seen_subseteq self s).
    + done.
    + by apply (seen_inv_attempt self s st1).
Qed.

Lemma scroll_reviews_seen_union_witness :
  let ids : gset string := {[ "r1"; "r2"; "r3" ]} in
  let σ' := {| driver := false; log := replicate 9 scroll_command |} in
  _scroll_reviews (scraper 500) (page three_then_still []) init_state = (σ', Ok ids) ∧
  ∃ st',
    rtc (attempt (scraper 500) (page three_then_still [])) loop_init st' ∧
    ids = seen_ids st' ∧
    ids = seen_upto (page three_then_still []) (scroll_count st') ∧
    log σ' = (log init_state ++ replicate (scroll_count st') scroll_command)%list ∧
    (∀ n, n < scroll_count st' → current (page three_then_still []) n ⊆ ids) ∧
    (∀ a b, rtc (attempt (scraper 500) (page three_then_still [])) loop_init a →
            attempt (scraper 500) (page three_then_still []) a b →
            seen_ids a ⊆ seen_ids b ∧
            size (seen_ids a) ≤ size (seen_ids b) ∧
            seen_ids a = seen_upto (page three_then_still []) (scroll_count a) ∧
            seen_ids b = seen_upto (page three_then_still []) (scroll_count b)).
Proof.
  intros ids σ'.
  assert (_scroll_reviews (scraper 500) (page three_then_still []) init_state
          = (σ', Ok ids)) as Hrun by (vm_compute; reflexivity).
  split; [exact Hrun|].
  exact (scroll_reviews_seen_union _ _ _ _ _ Hrun).
Defined.

(** *** The sample schedules *)

Lemma page_reads_ok schedule reviews : reads_ok (page schedule reviews).
Proof.
  intros n. unfold current_at. simpl.
  generalize (∅ : gset string).
  induction (schedule n) as [|id ids IH]; intros acc; simpl; [done|apply IH].
Qed.

Lemma late_arrival_grows : grows (page late_arrival []) 7.
Proof. unfold grows. vm_compute. discriminate. Qed.

Lemma late_arrival_settled n : 8 ≤ n → ¬ grows (page late_arrival []) n.
Proof.
  intros Hn Hg. apply Hg.
  assert (current (page late_arrival []) n = current (page late_arrival []) 7) as ->.
  { unfold current, current_at. simpl. unfold late_arrival.
    destruct (Nat.ltb_spec n 7); [lia|]. reflexivity. }
  pose proof (seen_upto_mono (page late_arrival []) 8 n Hn) as Hmono.
  simpl in Hmono. set_solver.
Qed.

Lemma eight_then_still_grows n : n < 8 → grows (page eight_then_still []) n.
Proof.
  intros Hn. unfold grows.
  do 8 (destruct n as [|n]; [vm_compute; discriminate|]). lia.
Qed.

Lemma eight_then_still_settled n : 8 ≤ n → ¬ grows (page eight_then_still []) n.
Proof.
  intros Hn Hg. apply Hg.
  assert (current (page eight_then_still []) n = current (page eight_then_still []) 7) as ->.
  { unfold current, current_at. simpl. unfold eight_then_still.
    by replace (n `min` 7) with 7 by lia. }
  pose proof (seen_upto_mono (page eight_then_still []) 8 n Hn) as Hmono.
  simpl in Hmono. set_solver.
Qed.

Lemma eight_then_still_stops : stops_growing_after (page eight_then_still []) 8.
Proof.
  split; [intros _; apply eight_then_still_grows; lia|].
  apply eight_then_still_settled.
Qed.

Lemma eight_then_still_no_stall : no_stall_before (page eight_then_still []) 8.
Proof.
  intros j Hj. unfold max_stale in *. exists j.
  split; [lia|]. apply eight_then_still_grows. lia.
Qed.

(** C2, as amended.  On a session whose reads succeed: if the content stops
    growing after attempt [k] and no [max_stale] attempts in a row before
    attempt [k] were all without growth, the loop returns after exactly
    [min (k + max_stale) max_scrolls] attempts; and if no [max_stale]
    attempts in a row among the first [max_scrolls] are all without growth,
    it returns after exactly [max_scrolls] attempts.  The log shows one
    scroll command per attempt. *)
Theorem scroll_loop_attempt_count self s σ :
  reads_ok s →
  (∀ k, stops_growing_after s k → no_stall_before s k →
        ∃ σ' st',
          scroll_loop self s loop_init σ = (σ', Ok st') ∧
          scroll_count st' = Nat.min (k + max_stale) (Z.to_nat (max_scrolls self)) ∧
          log σ' = (log σ ++ replicate (scroll_count st') scroll_command)%list) ∧
  (no_stall_before s (Z.to_nat (max_scrolls self)) →
   ∃ σ' st',
     scroll_loop self s loop_init σ = (σ', Ok st') ∧
     scroll_count st' = Z.to_nat (max_scrolls self) ∧
     log σ' = (log σ ++ replicate (scroll_count st') scroll_command)%list).
Proof.
  intros Hok. split.
  - intros k Hstop Hns.
    destruct (scroll_loop_stops_after self s k σ Hok Hstop Hns) as (σ' & st' & Hrun & Hn).
    exists σ', st'. split_and!; [done..|].
    destruct (scroll_loop_log _ _ _ _ _ _ Hrun) as (_ & Hlog & _).
    simpl in Hlog. by rewrite Nat.sub_0_r in Hlog.
  - intros Hns.
    destruct (scroll_loop_never_settles self s σ Hok Hns) as (σ' & st' & Hrun & Hn).
    exists σ', st'. split_and!; [done..|].
    destruct (scroll_loop_log _ _ _ _ _ _ Hrun) as (_ & Hlog & _).
    simpl in Hlog. by rewrite Nat.sub_0_r in Hlog.
Qed.

Lemma scroll_loop_attempt_count_witness :
  reads_ok (page eight_then_still []) ∧
  stops_growing_after (page eight_then_still []) 8 ∧
  no_stall_before (page eight_then_still []) 8 ∧
  (∃ σ' st',
     scroll_loop (scraper 500) (page eight_then_still []) loop_init init_state
       = (σ', Ok st') ∧
     scroll_count st' = 14 ∧
     log σ' = (log init_state ++ replicate (scroll_count st') scroll_command)%list) ∧
  (∃ σ' st',
     scroll_loop (scraper 8) (page eight_then_still []) loop_init init_state
       = (σ', Ok st') ∧
     scroll_count st' = 8 ∧
     log σ' = (log init_state ++ replicate (scroll_count st') scroll_command)%list).
Proof.
  split; [apply page_reads_ok|].
  split; [apply eight_then_still_stops|].
  split; [apply eight_then_still_no_stall|].
  split.
  - exact (proj1 (scroll_loop_attempt_count (scraper 500) (page eight_then_still [])
                    init_state (page_reads_ok _ _))
             8 eight_then_still_stops eight_then_still_no_stall).
  - exact (proj2 (scroll_loop_attempt_count (scraper 8) (page eight_then_still [])
                    init_state (page_reads_ok _ _))
             eight_then_still_no_stall).
Defined.

(** C2, as stated, fails: the loop does not wait for growth that comes
    after a stall of [max_stale] attempts.  On [late_arrival] the content
    stops growing after attempt 8, and the loop has returned after attempt
    7. *)
Lemma scroll_loop_stops_before_late_growth :
  ¬ (∀ self s σ k,
       reads_ok s → stops_growing_after s k →
       ∃ σ' st',
         scroll_loop self s loop_init σ = (σ', Ok st') ∧
         scroll_count st' = Nat.min (k + max_stale) (Z.to_nat (max_scrolls self))).
Proof.
  intros Hclaim.
  destruct (Hclaim (scraper 500) (page late_arrival []) init_state 8)
    as (σ' & st' & Hrun & Hn).
  - apply page_reads_ok.
  - split; [intros _; apply late_arrival_grows|apply late_arrival_settled].
  - vm_compute in Hrun. injection Hrun as _ <-. vm_compute in Hn. discriminate Hn.
Qed.

(** ** The extraction pass *)

Section Extraction.

Variable s : Session.
Variables company_name phone_number : string.

Lemma extract_loop_omap elements reviews_data :
  extract_loop company_name phone_number elements reviews_data
  = (reviews_data ++ omap (extracted company_name phone_number) elements)%list.
Proof.
  revert reviews_data.
  induction elements as [|r rest IH]; intros acc; simpl.
  - by rewrite app_nil_r.
  - unfold extracted at 1.
    destruct (extract_review _ _ r) as [[rv|]|]; rewrite IH; [|done..].
    by rewrite <- app_assoc.
Qed.

Lemma extract_reviews_omap reviews :
  _extract_reviews s company_name phone_number = Ok reviews →
  ∃ elements, review_elements s = Ok elements ∧
              reviews = omap (extracted company_name phone_number) elements.
Proof.
  unfold _extract_reviews, mbind, result_bind.
  destruct (review_elements s) as [elements|]; [|done].
  intros [= <-]. exists elements. by rewrite extract_loop_omap.
Qed.

(** The identifier a record carries is the one its element gave. *)
Lemma extracted_review_id r rv :
  extracted company_name phone_number r = Some rv →
  ∃ o, get_attribute r "data-review-id" = Ok o ∧
       truthy (or_empty o) = true ∧ review_id rv = or_empty o.
Proof.
  unfold extracted, extract_review, mbind, result_bind.
  destruct (get_attribute r "data-review-id") as [o|]; [|done].
  destruct (truthy (or_empty o)) eqn:Hid; simpl; [|done].
  destruct (rating_field r); [|done].
  do 3 (destruct (text_field r _); [|done]).
  intros [= <-]. by exists o.
Qed.

End Extraction.

(** ** The monad *)

Lemma bind_Ok_inv {Σ A B} (m : ST Σ A) (f : A → ST Σ B) σ σ' b :
  (m ≫= f) σ = (σ', Ok b) →
  ∃ a σ1, m σ = (σ1, Ok a) ∧ f a σ1 = (σ', Ok b).
Proof.
  unfold mbind, ST_bind. destruct (m σ) as [σ1 [a|e]]; [|done].
  intros Hf. by exists a, σ1.
Qed.

(** A bind runs its second part from the state the first part reached, or
    stops there with the exception the first part raised. *)
Lemma bind_cases {Σ A} (m : ST Σ A) σ :
  (∃ a, ∀ B (f : A → ST Σ B), (m ≫= f) σ = f a (fst (m σ))) ∨
  (∃ e, ∀ B (f : A → ST Σ B), (m ≫= f) σ = (fst (m σ), Raise e)).
Proof.
  unfold mbind, ST_bind. destruct (m σ) as [σ1 [a|e]]; [left|right]; eauto.
Qed.

Lemma bind_Ok {Σ A B} (m : ST Σ A) (f : A → ST Σ B) σ σ1 a :
  m σ = (σ1, Ok a) → (m ≫= f) σ = f a σ1.
Proof. unfold mbind, ST_bind. by intros ->. Qed.

Lemma bind_Raise {Σ A B} (m : ST Σ A) (f : A → ST Σ B) σ σ1 e :
  m σ = (σ1, Raise e) → (m ≫= f) σ = (σ1, Raise e).
Proof. unfold mbind, ST_bind. by intros ->. Qed.

Lemma bind_liftR {Σ A B} (r : result A) (f : A → ST Σ B) σ :
  (liftR r ≫= f) σ
  = match r with Ok a => f a σ | Raise e => (σ, Raise e) end.
Proof. unfold mbind, ST_bind, liftR. by destruct r. Qed.

(** ** The harvest *)

Section Harvest.

Variable self : GoogleMapsScraper.
Variable s : Session.

(** [scrape] returns a list only when its [try] block did. *)
Lemma scrape_Ok_inv σ σ' reviews :
  scrape self s σ = (σ', Ok reviews) →
  ∃ σ1, scrape_try self s σ = (σ1, Ok reviews).
Proof.
  unfold scrape, try_finally, try_except.
  destruct (scrape_try self s σ) as [σ1 [rv|e]]; simpl.
  - destruct (scrape_finally s σ1) as [σ2 [[]|]]; [|done].
    intros [= <- <-]. by exists σ1.
  - unfold raise. by destruct (scrape_finally s σ1) as [σ2 [[]|]].
Qed.

(** What [scrape] returns is what the extraction pass gave. *)
Lemma scrape_extract_reviews σ σ' reviews :
  scrape self s σ = (σ', Ok reviews) →
  ∃ company_name phone_number,
    _extract_company_info s = Ok (company_name, phone_number) ∧
    _extract_reviews s company_name phone_number = Ok reviews.
Proof.
  intros [σ1 Htry]%scrape_Ok_inv. unfold scrape_try in Htry.
  apply bind_Ok_inv in Htry as (_ & ? & _ & Htry).
  apply bind_Ok_inv in Htry as (_ & ? & _ & Htry).
  apply bind_Ok_inv in Htry as (_ & ? & _ & Htry).
  apply bind_Ok_inv in Htry as ([cn pn] & ? & [= _ Hinfo] & Htry).
  apply bind_Ok_inv in Htry as (_ & ? & _ & Htry).
  apply bind_Ok_inv in Htry as (_ & ? & _ & Htry).
  apply bind_Ok_inv in Htry as (_ & ? & _ & Htry).
  apply bind_Ok_inv in Htry as (rv & ? & [= _ Hrv] & [= _ <-]).
  by exists cn, pn.
Qed.

End Harvest.

(** ** Identifiers of the records *)

Lemma extracted_element_id company_name phone_number r rv :
  extracted company_name phone_number r = Some rv →
  element_id r = Some (review_id rv).
Proof.
  intros (o & Hget & Hid & ->)%extracted_review_id.
  unfold element_id. by rewrite Hget, Hid.
Qed.

Lemma extracted_ids_sublist company_name phone_number elements :
  review_id <$> omap (extracted company_name phone_number) elements
    `sublist_of` omap element_id elements.
Proof.
  induction elements as [|r rest IH]; simpl; [constructor|].
  destruct (extracted company_name phone_number r) as [rv|] eqn:Hrv; simpl.
  - rewrite (extracted_element_id _ _ _ _ Hrv). by apply sublist_skip.
  - destruct (element_id r); [by apply sublist_cons|done].
Qed.

(** C4, as amended.  The identifiers of the records a harvest returns are,
    in document order, identifiers of the elements present at the extraction
    pass, at most one record per element.  They are pairwise distinct
    whenever the non-empty identifiers of those elements are. *)
Theorem scrape_review_ids self s σ σ' reviews :
  scrape self s σ = (σ', Ok reviews) →
  ∃ elements,
    review_elements s = Ok elements ∧
    review_id <$> reviews `sublist_of` omap element_id elements ∧
    (NoDup (omap element_id elements) → NoDup (review_id <$> reviews)).
Proof.
  intros (cn & pn & _ & Hrv)%scrape_extract_reviews.
  apply extract_reviews_omap in Hrv as (elements & Hel & ->).
  exists elements. split; [done|].
  pose proof (extracted_ids_sublist cn pn elements) as Hsub.
  split; [done|]. intros Hnd. by eapply sublist_NoDup.
Qed.

Lemma scrape_review_ids_witness :
  let elements := [full_review; stale_review; second_review; third_review] in
  let records := [full_record; second_record; third_record] in
  scrape (scraper 500) (page three_then_still elements) init_state
    = ({| driver := true; log := harvest_log 9 |}, Ok records) ∧
  review_elements (page three_then_still elements) = Ok elements ∧
  omap element_id elements = ["r1"; "r2"; "r3"] ∧
  review_id <$> records `sublist_of` omap element_id elements ∧
  NoDup (review_id <$> records).
Proof.
  intros elements records.
  assert (scrape (scraper 500) (page three_then_still elements) init_state
          = ({| driver := true; log := harvest_log 9 |}, Ok records)) as Hrun
    by (vm_compute; reflexivity).
  destruct (scrape_review_ids _ _ _ _ _ Hrun) as (elements' & Hel & Hsub & Hnd).
  injection Hel as <-.
  split; [exact Hrun|]. split; [reflexivity|]. split; [reflexivity|].
  split; [exact Hsub|].
  apply Hnd. change (NoDup ["r1"; "r2"; "r3"]).
  apply (bool_decide_unpack _). vm_compute. reflexivity.
Defined.

(** C4, as stated, fails: the extraction pass appends one record per
    element and never compares identifiers.  Two elements that carry the
    same [data-review-id] give two records with that identifier. *)
Lemma scrape_duplicate_ids :
  ¬ (∀ self s σ σ' reviews,
       scrape self s σ = (σ', Ok reviews) → NoDup (review_id <$> reviews)).
Proof.
  intros Hclaim.
  assert (scrape (scraper 500) (page three_then_still twin_reviews) init_state
          = ({| driver := true; log := harvest_log 9 |}, Ok [full_record; bare_record]))
    as Hrun by (vm_compute; reflexivity).
  apply Hclaim in Hrun. simpl in Hrun.
  apply NoDup_cons_1_1 in Hrun. apply Hrun. by left.
Qed.

(** ** Fields of the records *)

Lemma truthy_false x : truthy x = false → x = "".
Proof. by destruct x. Qed.

(** What [strip] removes: a white-space character at the head of a string,
    and one at its end, whatever its encoding is long. *)
Lemma lstrip_white_space code s :
  code ∈ white_space → lstrip (utf8 code +:+ s) = lstrip s.
Proof.
  intros Hcode. unfold white_space in Hcode.
  repeat (apply elem_of_cons in Hcode as [-> | Hcode]; [vm_compute; reflexivity|]).
  by apply elem_of_nil in Hcode.
Qed.

Lemma rstrip_white_space code s :
  code ∈ white_space → rstrip (s +:+ utf8 code) = rstrip s.
Proof.
  intros Hcode. induction s as [|c s IH].
  - unfold white_space in Hcode.
    repeat (apply elem_of_cons in Hcode as [-> | Hcode]; [vm_compute; reflexivity|]).
    by apply elem_of_nil in Hcode.
  - change (String c s +:+ utf8 code) with (String c (s +:+ utf8 code)).
    cbn [rstrip]. by rewrite IH.
Qed.

Lemma extracted_rating company_name phone_number r rv :
  extracted company_name phone_number r = Some rv →
  match find_element r star_xpath with
  | Ok rating_el =>
      match get_attribute rating_el "aria-label" with
      | Ok label => rating rv = label
      | Raise e =>
          subclass (class_of e) NoSuchElementException = true ∧
          rating rv = Some "No rating"
      end
  | Raise e =>
      subclass (class_of e) NoSuchElementException = true ∧
      rating rv = Some "No rating"
  end.
Proof.
  intros Hrv.
  assert (rating_field r = Ok (rating rv)) as Hrt.
  { unfold extracted, extract_review, mbind, result_bind in Hrv.
    destruct (get_attribute r "data-review-id") as [o|]; [|done].
    destruct (negb (truthy (or_empty o))); [done|].
    destruct (rating_field r) as [rt|]; [|done].
    do 3 (destruct (text_field r _); [|done]).
    by injection Hrv as <-. }
  unfold rating_field, mbind, result_bind, catchR in Hrt.
  destruct (find_element r star_xpath) as [el|e].
  - destruct (get_attribute el "aria-label") as [label|e].
    + by injection Hrt as <-.
    + destruct (subclass (class_of e) _); [|done]. by injection Hrt as <-.
  - destruct (subclass (class_of e) _); [|done]. by injection Hrt as <-.
Qed.

(** C9.  Every record of the extraction pass comes from an element of the
    page and carries a rating: what reading the [aria-label] of the star
    element found below that element gave, and the string ["No rating"] when
    no star element is found below it, which is neither an absent nor an
    empty value. *)
Theorem extract_reviews_rating s company_name phone_number reviews rv :
  _extract_reviews s company_name phone_number = Ok reviews →
  rv ∈ reviews →
  ∃ elements r,
    review_elements s = Ok elements ∧ r ∈ elements ∧
    extracted company_name phone_number r = Some rv ∧
    match find_element r star_xpath with
    | Ok rating_el =>
        match get_attribute rating_el "aria-label" with
        | Ok label => rating rv = label
        | Raise e =>
            subclass (class_of e) NoSuchElementException = true ∧
            rating rv = Some "No rating"
        end
    | Raise e =>
        subclass (class_of e) NoSuchElementException = true ∧
        rating rv = Some "No rating" ∧ rating rv ≠ None ∧ rating rv ≠ Some ""
    end.
Proof.
  intros (elements & Hel & ->)%extract_reviews_omap Hin.
  apply list_elem_of_omap in Hin as (r & Hr & Hrv).
  exists elements, r. split_and!; [done..|].
  pose proof (extracted_rating _ _ _ _ Hrv) as Hrating.
  destruct (find_element r star_xpath); [done|].
  destruct Hrating as [? Hno]. by rewrite Hno.
Qed.

Lemma extract_reviews_rating_witness :
  _extract_reviews (page three_then_still twin_reviews) "Cafe Luna" ""
    = Ok [full_record; bare_record] ∧
  bare_record ∈ [full_record; bare_record] ∧
  ∃ elements r,
    review_elements (page three_then_still twin_reviews) = Ok elements ∧
    r ∈ elements ∧
    extracted "Cafe Luna" "" r = Some bare_record ∧
    match find_element r star_xpath with
    | Ok rating_el =>
        match get_attribute rating_el "aria-label" with
        | Ok label => rating bare_record = label
        | Raise e =>
            subclass (class_of e) NoSuchElementException = true ∧
            rating bare_record = Some "No rating"
        end
    | Raise e =>
        subclass (class_of e) NoSuchElementException = true ∧
        rating bare_record = Some "No rating" ∧
        rating bare_record ≠ None ∧ rating bare_record ≠ Some ""
    end.
Proof.
  assert (_extract_reviews (page three_then_still twin_reviews) "Cafe Luna" ""
          = Ok [full_record; bare_record]) as Hrun by (vm_compute; reflexivity).
  assert (bare_record ∈ [full_record; bare_record]) as Hin
    by (right; left).
  split; [exact Hrun|]. split; [exact Hin|].
  exact (extract_reviews_rating _ _ _ _ _ Hrun Hin).
Defined.

Lemma not_found_settles r : not_found r → settles r.
Proof. by intros (e & -> & He). Qed.

Lemma not_found_field_value r : not_found r → field_value r = "".
Proof. by intros (e & -> & He). Qed.

Lemma not_found_rating_value r :
  not_found (find_element r star_xpath) →
  rating_settles r ∧ rating_value r = Some "No rating".
Proof.
  intros (e & He & Hcls). unfold rating_settles, rating_value. by rewrite He.
Qed.

Lemma text_field_settled r xpath :
  settles (find_element r xpath) →
  text_field r xpath = Ok (field_value (find_element r xpath)).
Proof.
  unfold settles, text_field, field_value, mbind, result_bind, catchR.
  destruct (find_element r xpath) as [el|e].
  - by destruct (text el).
  - by intros ->.
Qed.

Lemma rating_field_settled r :
  rating_settles r → rating_field r = Ok (rating_value r).
Proof.
  unfold rating_settles, rating_field, rating_value, mbind, result_bind, catchR.
  destruct (find_element r star_xpath) as [el|e].
  - by destruct (get_attribute el "aria-label").
  - by intros ->.
Qed.

Lemma phone_loop_first_nonempty s candidates :
  Forall (phone_settles s) candidates →
  phone_loop s candidates ""
  = Ok (first_nonempty (omap (candidate_value s) candidates)).
Proof.
  induction 1 as [|xpath rest Hx _ IH]; [done|].
  simpl. unfold phone_settles in Hx. unfold candidate_value at 1.
  destruct (driver_find_element s xpath) as [el|e].
  - destruct Hx as [Ht Hh].
    destruct (text el) as [t|]; [|done].
    destruct (get_attribute el "href") as [href|]; [|done].
    destruct (truthy (strip t)) eqn:Htext.
    { unfold first_nonempty. simpl. by rewrite Htext. }
    generalize (replace "tel:" "" (or_empty href)). intros pn.
    destruct (truthy pn) eqn:Hhref.
    { unfold first_nonempty. simpl. by rewrite Hhref. }
    rewrite (truthy_false _ Hhref), IH.
    unfold first_nonempty. by simpl.
  - unfold on_no_such_element. by rewrite Hx, IH.
Qed.

Lemma phone_loop_none_found s candidates :
  Forall (fun xpath => not_found (driver_find_element s xpath)) candidates →
  Forall (phone_settles s) candidates ∧
  first_nonempty (omap (candidate_value s) candidates) = "".
Proof.
  induction 1 as [|xpath rest (e & He & Hcls) _ [IH1 IH2]]; [done|].
  split.
  - constructor; [|done]. unfold phone_settles. by rewrite He.
  - simpl. unfold candidate_value at 1. by rewrite He.
Qed.

Lemma extract_company_info_settled s :
  name_settles s → Forall (phone_settles s) phone_candidates →
  _extract_company_info s
  = Ok (field_value (wait_presence s name_xpath),
        strip (first_nonempty (omap (candidate_value s) phone_candidates))).
Proof.
  intros Hname Hphone.
  unfold _extract_company_info, name_settles, field_value in *.
  rewrite (phone_loop_first_nonempty _ _ Hphone).
  unfold mbind, result_bind, catchR.
  destruct (wait_presence s name_xpath) as [el|e].
  - by destruct (text el).
  - by rewrite Hname.
Qed.

Lemma extract_review_settled company_name phone_number r o :
  get_attribute r "data-review-id" = Ok o → truthy (or_empty o) = true →
  rating_settles r →
  settles (find_element r text_xpath) →
  settles (find_element r reviewer_xpath) →
  settles (find_element r date_xpath) →
  extract_review company_name phone_number r
  = Ok (Some {| review_id := or_empty o;
                reviewer := field_value (find_element r reviewer_xpath);
                rating := rating_value r;
                review_text := field_value (find_element r text_xpath);
                date := field_value (find_element r date_xpath);
                company_name := company_name;
                phone_number := phone_number |}).
Proof.
  intros Hid Hne Hrating Htext Hreviewer Hdate.
  unfold extract_review, mbind, result_bind.
  rewrite Hid, Hne. simpl.
  rewrite (rating_field_settled _ Hrating).
  by rewrite !text_field_settled.
Qed.

(** C5, as amended.  A lookup that finds nothing is not an error at any
    field.  The phone number is the first non-empty value its candidates
    yield, in order (the stripped text of the element found or, when that is
    empty, its [href] with every ["tel:"] removed), itself stripped of the
    white space around it at the return, so that it is empty when that value
    is white space only; it is the empty string when no candidate resolves.
    The text, the reviewer and the date of a review have one candidate each
    and are the stripped text of the element found, the empty string when
    none is; the rating is then ["No rating"].  White space is what
    [str.strip()] removes, the Unicode spaces included.  The record is
    appended whatever fields are missing, and the extraction pass returns a
    list whenever the lookup of the review elements does. *)
Theorem field_extraction_fallback s :
  (name_settles s → Forall (phone_settles s) phone_candidates →
   _extract_company_info s
   = Ok (field_value (wait_presence s name_xpath),
         strip (first_nonempty (omap (candidate_value s) phone_candidates)))) ∧
  (name_settles s →
   Forall (fun xpath => not_found (driver_find_element s xpath)) phone_candidates →
   _extract_company_info s = Ok (field_value (wait_presence s name_xpath), "")) ∧
  (∀ company_name phone_number r o,
     get_attribute r "data-review-id" = Ok o → truthy (or_empty o) = true →
     rating_settles r →
     settles (find_element r text_xpath) →
     settles (find_element r reviewer_xpath) →
     settles (find_element r date_xpath) →
     extract_review company_name phone_number r
     = Ok (Some {| review_id := or_empty o;
                   reviewer := field_value (find_element r reviewer_xpath);
                   rating := rating_value r;
                   review_text := field_value (find_element r text_xpath);
                   date := field_value (find_element r date_xpath);
                   company_name := company_name;
                   phone_number := phone_number |})) ∧
  (∀ company_name phone_number r o,
     get_attribute r "data-review-id" = Ok o → truthy (or_empty o) = true →
     not_found (find_element r star_xpath) →
     not_found (find_element r text_xpath) →
     not_found (find_element r reviewer_xpath) →
     not_found (find_element r date_xpath) →
     extract_review company_name phone_number r
     = Ok (Some {| review_id := or_empty o;
                   reviewer := "";
                   rating := Some "No rating";
                   review_text := "";
                   date := "";
                   company_name := company_name;
                   phone_number := phone_number |})) ∧
  (∀ company_name phone_number elements,
     review_elements s = Ok elements →
     _extract_reviews s company_name phone_number
     = Ok (omap (extracted company_name phone_number) elements)).
Proof.
  split_and!.
  - apply extract_company_info_settled.
  - intros Hname [Hphone Hnone]%phone_loop_none_found.
    by rewrite (extract_company_info_settled _ Hname Hphone), Hnone.
  - apply extract_review_settled.
  - intros cn pn r o Hid Hne [Hrs Hrv]%not_found_rating_value Ht Hr Hd.
    rewrite (extract_review_settled cn pn r o Hid Hne Hrs);
      [|by apply not_found_settles..].
    by rewrite Hrv, !not_found_field_value.
  - intros cn pn elements Hel. unfold _extract_reviews, mbind, result_bind.
    by rewrite Hel, extract_loop_omap.
Qed.

Lemma phone_page_settles : Forall (phone_settles phone_page) phone_candidates.
Proof. repeat (constructor; [vm_compute; auto|]). constructor. Qed.

Lemma wide_space_page_settles :
  Forall (phone_settles wide_space_page) phone_candidates.
Proof. repeat (constructor; [vm_compute; auto|]). constructor. Qed.

Lemma page_no_phone schedule reviews :
  Forall (fun xpath => not_found (driver_find_element (page schedule reviews) xpath))
    phone_candidates.
Proof.
  apply Forall_forall. intros xpath _. by eexists.
Qed.

Lemma bare_review_not_found xpath : not_found (find_element bare_review xpath).
Proof. by eexists. Qed.

Lemma field_extraction_fallback_witness :
  _extract_company_info phone_page = Ok ("Cafe Luna", "+1 555 0100") ∧
  first_nonempty (omap (candidate_value wide_space_page) phone_candidates)
  = " +1 555 0100" +:+ utf8 0x2003 ∧
  _extract_company_info wide_space_page = Ok ("Cafe Luna", "+1 555 0100") ∧
  extract_review "Cafe Luna" "" wide_review = Ok (Some wide_record) ∧
  _extract_company_info (page three_then_still twin_reviews) = Ok ("Cafe Luna", "") ∧
  extract_review "Cafe Luna" "" full_review = Ok (Some full_record) ∧
  extract_review "Cafe Luna" "" bare_review = Ok (Some bare_record) ∧
  _extract_reviews (page three_then_still twin_reviews) "Cafe Luna" ""
  = Ok [full_record; bare_record].
Proof.
  split_and!.
  - exact (proj1 (field_extraction_fallback phone_page) eq_refl phone_page_settles).
  - vm_compute. reflexivity.
  - exact (proj1 (field_extraction_fallback wide_space_page) eq_refl
             wide_space_page_settles).
  - exact (proj1 (proj2 (proj2 (field_extraction_fallback wide_space_page)))
             "Cafe Luna" "" wide_review (Some "r4")
             eq_refl eq_refl eq_refl eq_refl eq_refl eq_refl).
  - exact (proj1 (proj2 (field_extraction_fallback (page three_then_still twin_reviews)))
             eq_refl (page_no_phone _ _)).
  - exact (proj1 (proj2 (proj2 (field_extraction_fallback phone_page)))
             "Cafe Luna" "" full_review (Some "r1")
             eq_refl eq_refl eq_refl eq_refl eq_refl eq_refl).
  - exact (proj1 (proj2 (proj2 (proj2 (field_extraction_fallback phone_page))))
             "Cafe Luna" "" bare_review (Some "r1") eq_refl eq_refl
             (bare_review_not_found _) (bare_review_not_found _)
             (bare_review_not_found _) (bare_review_not_found _)).
  - exact (proj2 (proj2 (proj2 (proj2
             (field_extraction_fallback (page three_then_still twin_reviews)))))
             "Cafe Luna" "" twin_reviews eq_refl).
Defined.

(** C5, as stated, fails twice.  At the rating: when the star lookup finds
    nothing the field is not the empty string but ["No rating"].  And
    extraction can raise: the phone loop handles [NoSuchElementException]
    only, so an element that goes stale between its lookup and the read of
    its text ends [_extract_company_info], and with it the harvest, with
    that exception. *)
Lemma rating_sentinel_and_stale_phone :
  ¬ (∀ company_name phone_number r rv,
       extract_review company_name phone_number r = Ok (Some rv) →
       (not_found (find_element r star_xpath) → rating rv = Some "") ∧
       (not_found (find_element r text_xpath) → review_text rv = "") ∧
       (not_found (find_element r reviewer_xpath) → reviewer rv = "") ∧
       (not_found (find_element r date_xpath) → date rv = "")) ∧
  _extract_company_info stale_phone_page
  = Raise (mk_exn StaleElementReferenceException
             "stale element reference: element is not attached to the page document") ∧
  snd (scrape (scraper 500) stale_phone_page init_state)
  = Raise (mk_exn Exception
             "Scraping failed: stale element reference: element is not attached to the page document").
Proof.
  split_and!.
  - intros Hclaim.
    destruct (Hclaim "Cafe Luna" "" bare_review bare_record eq_refl) as [Hrating _].
    specialize (Hrating (bare_review_not_found _)). discriminate Hrating.
  - reflexivity.
  - vm_compute. reflexivity.
Qed.

(** ** Release of the session *)

(** The state is as it was, or differs in [driver] only. *)
Ltac tame_nil :=
  intros σ; split; [done|]; exists []; simpl; rewrite app_nil_r;
  split; [done|apply not_elem_of_nil].

Lemma tame_ret {A} (a : A) : tame (mret a).
Proof. tame_nil. Qed.

Lemma tame_raise {A} e : tame (@raise State A e).
Proof. tame_nil. Qed.

Lemma tame_liftR {A} (r : result A) : tame (liftR r).
Proof. tame_nil. Qed.

Lemma tame_call {A} c (r : result A) : c ≠ Quit → tame (call c r).
Proof.
  intros Hc σ. split; [done|]. exists [c]. split; [done|].
  intros Hin%list_elem_of_singleton. congruence.
Qed.

Lemma tame_set_driver : tame set_driver.
Proof. tame_nil. Qed.

Lemma tame_bind {A B} (m : M A) (f : A → M B) :
  tame m → (∀ a, tame (f a)) → tame (m ≫= f).
Proof.
  intros Hm Hf σ. destruct (Hm σ) as (Hd & l & Hl & Hq).
  unfold mbind, ST_bind. destruct (m σ) as [σ1 [a|e]]; simpl in *.
  - destruct (Hf a σ1) as (Hd' & l' & Hl' & Hq').
    split; [auto|]. exists (l ++ l')%list.
    rewrite Hl', Hl, app_assoc. split; [done|]. rewrite elem_of_app. tauto.
  - split; [done|]. by exists l.
Qed.

Lemma tame_try_except {A} (m : M A) hs :
  tame m → Forall (fun h => ∀ e, tame (snd h e)) hs → tame (try_except m hs).
Proof.
  intros Hm Hhs σ. destruct (Hm σ) as (Hd & l & Hl & Hq).
  unfold try_except. destruct (m σ) as [σ1 [a|e]]; simpl in *.
  - split; [done|]. by exists l.
  - destruct (List.find _ hs) as [h|] eqn:Hfind.
    + apply find_some in Hfind as [Hin _].
      rewrite Forall_forall in Hhs. apply list_elem_of_In in Hin.
      destruct (Hhs h Hin e σ1) as (Hd' & l' & Hl' & Hq').
      split; [auto|]. exists (l ++ l')%list.
      rewrite Hl', Hl, app_assoc. split; [done|]. rewrite elem_of_app. tauto.
    + split; [done|]. by exists l.
Qed.

Create HintDb tame.
#[local] Hint Resolve tame_ret tame_raise tame_liftR tame_set_driver : tame.
#[local] Hint Extern 1 (tame (call _ _)) => apply tame_call; discriminate : tame.
#[local] Hint Extern 2 (tame (_ ≫= _)) =>
  apply tame_bind; [|intros ?; cbv beta] : tame.
#[local] Hint Extern 2 (tame (try_except _ _)) =>
  apply tame_try_except; [|constructor; [intros ?; cbn [snd]|constructor]] : tame.

Section Release.

Variable self : GoogleMapsScraper.
Variable s : Session.

Lemma tame_close_cookie_popup : tame (_close_cookie_popup s).
Proof. unfold _close_cookie_popup. auto 10 with tame. Qed.

Lemma tame_tabs_loop candidates : tame (tabs_loop s candidates).
Proof.
  induction candidates as [|xpath rest IH]; simpl; [auto with tame|].
  apply tame_bind; [auto 10 with tame|]. intros []; auto with tame.
Qed.

Lemma tame_open_reviews_tab : tame (_open_reviews_tab s).
Proof.
  unfold _open_reviews_tab. apply tame_try_except.
  - apply tame_bind; [apply tame_tabs_loop|]. intros []; auto with tame.
  - constructor; [|constructor]. intros e. cbn [snd]. auto with tame.
Qed.

Lemma tame_scroll_loop st : tame (scroll_loop self s st).
Proof.
  intros σ. funelim (scroll_loop self s st σ).
  - split; [done|]. exists []. simpl. rewrite app_nil_r.
    split; [done|apply not_elem_of_nil].
  - rewrite scroll_observe_eq in Heq. injection Heq as <- _.
    destruct H as (Hd & l & Hl & Hq). simpl in *.
    split; [done|]. exists (scroll_command :: l).
    rewrite Hl, <- app_assoc. split; [done|].
    rewrite elem_of_cons. by intros [?|?].
  - rewrite scroll_observe_eq in Heq. injection Heq as <- _. simpl.
    split; [done|]. exists [scroll_command]. split; [done|].
    by intros ?%list_elem_of_singleton.
Qed.

Lemma tame_scroll_reviews : tame (_scroll_reviews self s).
Proof.
  unfold _scroll_reviews. apply tame_bind; [auto with tame|]. intros _.
  apply tame_bind; [apply tame_scroll_loop|]. auto with tame.
Qed.

Lemma tame_click_all buttons : tame (click_all buttons).
Proof.
  induction buttons as [|btn rest IH]; simpl; [auto with tame|].
  apply tame_bind; [auto 10 with tame|]. by intros _.
Qed.

Lemma tame_expand_see_more : tame (_expand_see_more s).
Proof.
  unfold _expand_see_more. apply tame_bind; [auto with tame|].
  apply tame_click_all.
Qed.

End Release.

Section ReleaseHarvest.

Variable self : GoogleMapsScraper.
Variable s : Session.

(** Once the driver exists, [_setup_driver] ends with [self.driver] set,
    whether or not its later steps raise. *)
Lemma setup_driver_acquires σ :
  Chrome s (chromedriver_path self) = Ok tt →
  driver (fst (_setup_driver self s σ)) = true ∧
  ∃ l, log (fst (_setup_driver self s σ))
       = (log σ ++ NewChrome (chromedriver_path self) :: l)%list ∧ Quit ∉ l.
Proof.
  intros Hchrome.
  unfold _setup_driver, call, set_driver, mbind, ST_bind. rewrite Hchrome. simpl.
  destruct (execute_cdp_cmd s); simpl.
  - split; [by destruct (webdriver_script s)|].
    eexists [_; _]. split.
    + destruct (webdriver_script s); simpl; by rewrite <- !app_assoc.
    + rewrite !elem_of_cons, elem_of_nil. by intros [|[|]].
  - split; [done|]. eexists [_]. split; [by rewrite <- app_assoc|].
    by intros ?%list_elem_of_singleton.
Qed.

(** The steps of the [try] block that follow [_setup_driver]. *)
Lemma tame_after_setup :
  tame (call (Get (maps_url self)) (get s (maps_url self));;
        _close_cookie_popup s;;
        '(company_name, phone_number) ← liftR (_extract_company_info s);
        _open_reviews_tab s;;
        _scroll_reviews self s;;
        _expand_see_more s;;
        reviews_data ← liftR (_extract_reviews s company_name phone_number);
        mret reviews_data).
Proof.
  apply tame_bind; [auto with tame|]. intros _.
  apply tame_bind; [apply tame_close_cookie_popup|]. intros _.
  apply tame_bind; [auto with tame|]. intros [company_name phone_number].
  apply tame_bind; [apply tame_open_reviews_tab|]. intros _.
  apply tame_bind; [apply tame_scroll_reviews|]. intros _.
  apply tame_bind; [apply tame_expand_see_more|]. intros _.
  auto with tame.
Qed.

Lemma scrape_try_acquires σ :
  Chrome s (chromedriver_path self) = Ok tt →
  driver (fst (scrape_try self s σ)) = true ∧
  ∃ l, log (fst (scrape_try self s σ))
       = (log σ ++ NewChrome (chromedriver_path self) :: l)%list ∧ Quit ∉ l.
Proof.
  intros Hchrome.
  destruct (setup_driver_acquires σ Hchrome) as (Hd & l & Hl & Hq).
  unfold scrape_try.
  destruct (bind_cases (_setup_driver self s) σ) as [(a & Hm)|(e & Hm)];
    rewrite Hm.
  - destruct (tame_after_setup (fst (_setup_driver self s σ))) as (Hd' & l' & Hl' & Hq').
    split; [auto|]. exists (l ++ l')%list.
    rewrite Hl', Hl, <- app_assoc. split; [done|]. rewrite elem_of_app. tauto.
  - simpl. split; [done|]. by exists l.
Qed.

(** The [except] clause of [scrape] re-raises and leaves the state. *)
Lemma scrape_except_state σ :
  fst (try_except (scrape_try self s)
         [(Exception,
           fun e => raise (mk_exn Exception ("Scraping failed: " +:+ str e)))] σ)
  = fst (scrape_try self s σ).
Proof.
  unfold try_except. by destruct (scrape_try self s σ) as [σ1 [rv|e]].
Qed.

End ReleaseHarvest.

(** C6.  A harvest whose driver was created ends, on every exit path, with
    the driver quit: whatever [scrape] returns or raises from whatever state,
    the commands it has issued start with the creation of the driver and end
    with [quit], which is issued once. *)
Theorem scrape_releases_session self s σ :
  Chrome s (chromedriver_path self) = Ok tt →
  ∃ l, log (fst (scrape self s σ))
       = (log σ ++ NewChrome (chromedriver_path self) :: l ++ [Quit])%list ∧
       Quit ∉ l.
Proof.
  intros Hchrome.
  destruct (scrape_try_acquires self s σ Hchrome) as (Hd & l & Hl & Hq).
  exists l. split; [|done].
  unfold scrape, try_finally.
  pose proof (scrape_except_state self s σ) as Hstate.
  destruct (try_except _ _ σ) as [σ1 r]. simpl in Hstate. subst σ1.
  unfold scrape_finally. rewrite Hd. unfold call.
  destruct (quit s) as [[]|e]; simpl; rewrite Hl;
    by rewrite <- app_assoc.
Qed.

Lemma scrape_releases_session_witness :
  Chrome (page three_then_still twin_reviews) (chromedriver_path (scraper 500)) = Ok tt ∧
  ∃ l, log (fst (scrape (scraper 500) (page three_then_still twin_reviews) init_state))
       = (log init_state ++ NewChrome (chromedriver_path (scraper 500)) :: l ++ [Quit])%list ∧
       Quit ∉ l.
Proof.
  split; [reflexivity|].
  exact (scrape_releases_session (scraper 500) (page three_then_still twin_reviews)
           init_state eq_refl).
Defined.


(** ** The job tracker *)

Section Tracker.

Variable CHROMEDRIVER_PATH : string.
Variable env : Env.
Variables id url : string.

Lemma update_job_found (f : Job → Job) σ job :
  jobs_db σ !! id = Some job →
  update_job id f σ
  = ({| jobs_db := <[id := f job]> (jobs_db σ); files := files σ |}, Ok tt).
Proof. unfold update_job. by intros ->. Qed.

(** The [try] block up to the return of [scrape], for a job that is in
    [jobs_db]. *)
Lemma run_scraper_body_scrape σ job :
  jobs_db σ !! id = Some job →
  run_scraper_body CHROMEDRIVER_PATH env id url σ
  = let σ1 := {| jobs_db := <[id := set_processing (now_started env) job]> (jobs_db σ);
                 files := files σ |} in
    match snd (scrape (job_scraper CHROMEDRIVER_PATH url) (session env) init_state) with
    | Raise e => (σ1, Raise e)
    | Ok reviews_data =>
        if bool_decide (reviews_data = [])
        then (σ1, Raise (mk_exn ValueError "No reviews were extracted from this location"))
        else
          (liftR (mkdir env);;
           open_file env ("output/" +:+ id +:+ ".json");;
           write_file env ("output/" +:+ id +:+ ".json") reviews_data;;
           update_job id (set_completed (now_completed env)
                            (Z.of_nat (List.length reviews_data))
                            ("output/" +:+ id +:+ ".json"))) σ1
    end.
Proof.
  intros Hjob. unfold run_scraper_body.
  rewrite (bind_Ok _ _ _ _ _ (update_job_found _ _ _ Hjob)).
  rewrite bind_liftR. simpl.
  destruct (snd (scrape _ (session env) init_state)) as [reviews_data|e]; [|done].
  case_bool_decide.
  - by rewrite (bind_Raise (raise _) _ _ _ _ eq_refl).
  - by rewrite (bind_Ok (mret tt) _ _ _ _ eq_refl).
Qed.

Lemma update_job_processing (f : Job → Job) σ job :
  update_job id f (processing env id σ job)
  = ({| jobs_db := <[id := f (set_processing (now_started env) job)]> (jobs_db σ);
        files := files σ |}, Ok tt).
Proof.
  unfold update_job, processing. simpl.
  by rewrite lookup_insert_eq, insert_insert_eq.
Qed.

(** A harvest that returns the empty list. *)
Lemma run_scraper_sync_no_reviews σ job :
  jobs_db σ !! id = Some job →
  snd (scrape (job_scraper CHROMEDRIVER_PATH url) (session env) init_state) = Ok [] →
  run_scraper_body CHROMEDRIVER_PATH env id url σ
  = (processing env id σ job,
     Raise (mk_exn ValueError "No reviews were extracted from this location")) ∧
  run_scraper_sync CHROMEDRIVER_PATH env id url σ
  = ({| jobs_db :=
          <[id := set_failed "No reviews were extracted from this location" None
                    "no_reviews" (set_processing (now_started env) job)]> (jobs_db σ);
        files := files σ |}, Ok tt).
Proof.
  intros Hjob Hscrape.
  assert (run_scraper_body CHROMEDRIVER_PATH env id url σ
          = (processing env id σ job,
             Raise (mk_exn ValueError "No reviews were extracted from this location")))
    as Hbody.
  { rewrite (run_scraper_body_scrape _ _ Hjob). by rewrite Hscrape. }
  split; [done|].
  unfold run_scraper_sync, try_except. rewrite Hbody.
  cbn [List.find class_of subclass fst snd str].
  rewrite !bool_decide_eq_false_2 by done. rewrite bool_decide_eq_true_2 by done.
  apply update_job_processing.
Qed.

(** A harvest that raises: [scrape] only raises plain [Exception]s. *)
Lemma run_scraper_sync_scrape_raises σ job msg :
  jobs_db σ !! id = Some job →
  snd (scrape (job_scraper CHROMEDRIVER_PATH url) (session env) init_state)
  = Raise (mk_exn Exception msg) →
  run_scraper_sync CHROMEDRIVER_PATH env id url σ
  = ({| jobs_db :=
          <[id := set_failed msg (Some (format_exc env (mk_exn Exception msg)))
                    "unknown" (set_processing (now_started env) job)]> (jobs_db σ);
        files := files σ |}, Ok tt).
Proof.
  intros Hjob Hscrape.
  unfold run_scraper_sync, try_except.
  rewrite (run_scraper_body_scrape _ _ Hjob). rewrite Hscrape.
  cbn [List.find class_of subclass fst snd str].
  rewrite !bool_decide_eq_false_2 by done.
  apply update_job_processing.
Qed.

End Tracker.

(** Whatever the creation of the driver raises, [scrape] raises a plain
    [Exception] that carries its message. *)
Lemma scrape_setup_failure self s e :
  Chrome s (chromedriver_path self) = Raise e →
  scrape self s init_state
  = ({| driver := false; log := [NewChrome (chromedriver_path self)] |},
     Raise (mk_exn Exception ("Scraping failed: " +:+ str e))).
Proof.
  intros Hchrome.
  unfold scrape, try_finally, try_except, scrape_try, _setup_driver.
  unfold mbind, ST_bind, call at 1. rewrite Hchrome. done.
Qed.

(** C3.  When the harvest of a submitted job runs to the end of its
    extraction pass and its record list is empty, the background run raises
    the no-records error ([ValueError], right after [scrape] returns) and
    leaves the job in status ["failed"] with [error_type] ["no_reviews"] and
    the message of that error; the job is not ["completed"], it has no
    output file, and no file is written. *)
Theorem empty_harvest_fails CHROMEDRIVER_PATH env id url σ job :
  jobs_db σ !! id = Some job →
  snd (scrape (job_scraper CHROMEDRIVER_PATH url) (session env) init_state) = Ok [] →
  let run := run_scraper_sync CHROMEDRIVER_PATH env id url σ in
  snd (run_scraper_body CHROMEDRIVER_PATH env id url σ)
  = Raise (mk_exn ValueError "No reviews were extracted from this location") ∧
  snd run = Ok tt ∧
  files (fst run) = files σ ∧
  ∃ job',
    jobs_db (fst run) !! id = Some job' ∧
    status job' = "failed" ∧ status job' ≠ "completed" ∧
    error_type job' = Some "no_reviews" ∧
    error job' = Some "No reviews were extracted from this location" ∧
    output_file job' = output_file job ∧ total_reviews job' = total_reviews job.
Proof.
  intros Hjob Hscrape run.
  destruct (run_scraper_sync_no_reviews CHROMEDRIVER_PATH env id url σ job Hjob Hscrape)
    as [Hbody Hrun].
  subst run. rewrite Hbody, Hrun. simpl.
  split_and!; [done..|].
  eexists. split; [apply lookup_insert_eq|]. by simpl.
Qed.

Lemma empty_harvest_fails_witness :
  jobs_db queued_server !! "job-1"
  = Some {| job_id := "job-1"; status := "queued";
            created_at := "2024-05-01T09:59:59"; job_maps_url := place_url;
            started_at := None; completed_at := None; total_reviews := None;
            output_file := None; error := None; error_trace := None;
            error_type := None |} ∧
  snd (scrape (job_scraper "/usr/bin/chromedriver" place_url)
         (session (background (page three_then_still []))) init_state) = Ok [] ∧
  ∃ job',
    jobs_db (after_run (page three_then_still [])) !! "job-1" = Some job' ∧
    status job' = "failed" ∧ status job' ≠ "completed" ∧
    error_type job' = Some "no_reviews" ∧
    error job' = Some "No reviews were extracted from this location" ∧
    output_file job' = None ∧ total_reviews job' = None.
Proof.
  assert (jobs_db queued_server !! "job-1"
          = Some {| job_id := "job-1"; status := "queued";
                    created_at := "2024-05-01T09:59:59"; job_maps_url := place_url;
                    started_at := None; completed_at := None; total_reviews := None;
                    output_file := None; error := None; error_trace := None;
                    error_type := None |}) as Hjob by (vm_compute; reflexivity).
  assert (snd (scrape (job_scraper "/usr/bin/chromedriver" place_url)
                 (session (background (page three_then_still []))) init_state)
          = Ok []) as Hscrape by (vm_compute; reflexivity).
  split; [exact Hjob|]. split; [exact Hscrape|].
  exact (proj2 (proj2 (proj2
           (empty_harvest_fails "/usr/bin/chromedriver"
              (background (page three_then_still [])) "job-1" place_url
              queued_server _ Hjob Hscrape)))).
Defined.

(** C7 on the code.  When the creation of the driver raises, whatever the
    exception is, [scrape] wraps it in a plain [Exception], and the
    background run files the job under [error_type] ["unknown"], with the
    wrapped message and a traceback: the clause for [FileNotFoundError] is
    not the one that runs, and ["chromedriver_not_found"] is not
    recorded. *)
Theorem driver_failure_recorded_unknown CHROMEDRIVER_PATH env id url σ job e :
  jobs_db σ !! id = Some job →
  Chrome (session env) CHROMEDRIVER_PATH = Raise e →
  let run := run_scraper_sync CHROMEDRIVER_PATH env id url σ in
  snd (scrape (job_scraper CHROMEDRIVER_PATH url) (session env) init_state)
  = Raise (mk_exn Exception ("Scraping failed: " +:+ str e)) ∧
  ∃ job',
    jobs_db (fst run) !! id = Some job' ∧
    status job' = "failed" ∧
    error_type job' = Some "unknown" ∧
    error_type job' ≠ Some "chromedriver_not_found" ∧
    error job' = Some ("Scraping failed: " +:+ str e).
Proof.
  intros Hjob Hchrome run.
  assert (snd (scrape (job_scraper CHROMEDRIVER_PATH url) (session env) init_state)
          = Raise (mk_exn Exception ("Scraping failed: " +:+ str e))) as Hscrape.
  { by rewrite (scrape_setup_failure (job_scraper CHROMEDRIVER_PATH url) _ e Hchrome). }
  split; [done|]. subst run.
  rewrite (run_scraper_sync_scrape_raises _ _ _ _ _ _ _ Hjob Hscrape). simpl.
  eexists. split; [apply lookup_insert_eq|]. by simpl.
Qed.

Lemma driver_failure_recorded_unknown_witness :
  Chrome no_chromedriver "/usr/bin/chromedriver"
  = Raise (mk_exn FileNotFoundError
             "[Errno 2] No such file or directory: '/usr/bin/chromedriver'") ∧
  ∃ job',
    jobs_db (after_run no_chromedriver) !! "job-1" = Some job' ∧
    status job' = "failed" ∧
    error_type job' = Some "unknown" ∧
    error_type job' ≠ Some "chromedriver_not_found" ∧
    error job'
    = Some "Scraping failed: [Errno 2] No such file or directory: '/usr/bin/chromedriver'".
Proof.
  split; [reflexivity|].
  exact (proj2 (driver_failure_recorded_unknown "/usr/bin/chromedriver"
                  (background no_chromedriver) "job-1" place_url queued_server
                  _ _ eq_refl eq_refl)).
Defined.

(** C8.  For a job identifier that is not in [jobs_db], the status route and
    the result route both answer 404 "Job not found".  For a job that is
    there and whose status is not ["completed"], the result route answers
    400 "Job not completed yet", and no record list. *)
Theorem unknown_or_unfinished_job σ id :
  (jobs_db σ !! id = None →
   get_job_status σ id = HTTPException 404 "Job not found" ∧
   download_results σ id = HTTPException 404 "Job not found") ∧
  (∀ job, jobs_db σ !! id = Some job → status job ≠ "completed" →
          download_results σ id = HTTPException 400 "Job not completed yet").
Proof.
  unfold get_job_status, download_results. split.
  - by intros ->.
  - intros job -> Hstatus. by rewrite bool_decide_eq_true_2.
Qed.

Lemma unknown_or_unfinished_job_witness :
  (get_job_status queued_server "job-2" = HTTPException 404 "Job not found" ∧
   download_results queued_server "job-2" = HTTPException 404 "Job not found") ∧
  download_results queued_server "job-1" = HTTPException 400 "Job not completed yet" ∧
  download_results (processing (background no_chromedriver) "job-1" queued_server
                      {| job_id := "job-1"; status := "queued";
                         created_at := "2024-05-01T09:59:59"; job_maps_url := place_url;
                         started_at := None; completed_at := None;
                         total_reviews := None; output_file := None; error := None;
                         error_trace := None; error_type := None |}) "job-1"
  = HTTPException 400 "Job not completed yet".
Proof.
  split; [|split].
  - exact (proj1 (unknown_or_unfinished_job queued_server "job-2") eq_refl).
  - eapply (proj2 (unknown_or_unfinished_job queued_server "job-1"));
      [vm_compute; reflexivity|simpl; discriminate].
  - eapply (proj2 (unknown_or_unfinished_job _ "job-1"));
      [apply lookup_insert_eq|simpl; discriminate].
Defined.

(** C10.  For a job that is in [jobs_db] with status ["completed"], the
    result route answers 404 "Output file not found" when the job has no
    [output_file], an empty one, or one that names no existing file; the
    status route still returns the job. *)
Theorem completed_without_output σ id job :
  jobs_db σ !! id = Some job →
  status job = "completed" →
  output_file job = None ∨ output_file job = Some "" ∨
  (∃ path, output_file job = Some path ∧ files σ !! path = None) →
  download_results σ id = HTTPException 404 "Output file not found" ∧
  get_job_status σ id = Return job.
Proof.
  intros Hjob Hstatus Hout. unfold download_results, get_job_status.
  rewrite Hjob, Hstatus. split; [|done].
  rewrite bool_decide_eq_false_2 by (by intros ?).
  destruct Hout as [->|[->|(path & -> & Hfile)]]; [done..|].
  rewrite Hfile. by destruct (truthy path).
Qed.

Lemma completed_without_output_witness :
  ∃ job,
    jobs_db output_removed !! "job-1" = Some job ∧
    status job = "completed" ∧
    output_file job = Some "output/job-1.json" ∧
    files output_removed !! "output/job-1.json" = None ∧
    download_results output_removed "job-1" = HTTPException 404 "Output file not found" ∧
    get_job_status output_removed "job-1" = Return job.
Proof.
  eexists.
  assert (jobs_db output_removed !! "job-1"
          = Some {| job_id := "job-1"; status := "completed";
                    created_at := "2024-05-01T09:59:59"; job_maps_url := place_url;
                    started_at := Some "2024-05-01T10:00:00";
                    completed_at := Some "2024-05-01T10:05:00";
                    total_reviews := Some 2%Z;
                    output_file := Some "output/job-1.json"; error := None;
                    error_trace := None; error_type := None |}) as Hjob
    by (vm_compute; reflexivity).
  split; [exact Hjob|]. split; [reflexivity|]. split; [reflexivity|].
  split; [reflexivity|].
  exact (completed_without_output output_removed "job-1" _ Hjob eq_refl
           (or_intror (or_intror (ex_intro _ "output/job-1.json"
              (conj eq_refl eq_refl))))).
Defined.

(** * Further properties of the code *)

(** ** The scroll loop: bounds and failures *)

Section ScrollBounds.

Variable self : GoogleMapsScraper.
Variable s : Session.

(** What the loop keeps about its two counters. *)
Lemma scroll_loop_counters σ σ' st' :
  scroll_loop self s loop_init σ = (σ', Ok st') →
  stale_count st' ≤ max_stale ∧
  stale_count st' ≤ scroll_count st' ∧
  scroll_count st' ≤ Z.to_nat (max_scrolls self) ∧
  Nat.min max_stale (Z.to_nat (max_scrolls self)) ≤ scroll_count st'.
Proof.
  intros Hrun.
  pose (P := fun st : loop_state =>
    stale_count st ≤ max_stale ∧ stale_count st ≤ scroll_count st ∧
    scroll_count st ≤ Z.to_nat (max_scrolls self)).
  assert (P st' ∧ loop_cond self st' = false) as [(H1 & H2 & H3) Hexit].
  { apply (scroll_loop_rule self s P) with (st := loop_init) (σ := σ) (σ' := σ');
      [|unfold P; simpl; lia|done].
    intros st c (H1 & H2 & H3) _ Hcond _.
    pose proof (loop_cond_true _ _ Hcond) as [Hst Hlt].
    unfold P, scroll_update. case_bool_decide; simpl; lia. }
  apply loop_cond_false in Hexit. lia.
Qed.


End ScrollBounds.

(** X1.  When [_scroll_reviews] returns, it has issued one scroll command
    per attempt and nothing else, never more than [max_scrolls] of them, and
    never fewer than [max_stale] unless [max_scrolls] is smaller: the loop
    does not give up before six attempts. *)
Theorem scroll_reviews_attempt_bounds self s σ σ' ids :
  _scroll_reviews self s σ = (σ', Ok ids) →
  ∃ n, log σ' = (log σ ++ replicate n scroll_command)%list ∧
       driver σ' = driver σ ∧
       Nat.min max_stale (Z.to_nat (max_scrolls self)) ≤ n ∧
       n ≤ Z.to_nat (max_scrolls self).
Proof.
  rewrite scroll_reviews_eq. destruct (wait_presence s _); [|done].
  destruct (scroll_loop self s loop_init σ) as [σ1 [st'|]] eqn:Hrun; [|done].
  intros [= <- <-]. exists (scroll_count st').
  destruct (scroll_loop_log _ _ _ _ _ _ Hrun) as (Hd & Hlog & _).
  destruct (scroll_loop_counters _ _ _ _ _ Hrun) as (_ & _ & Hmax & Hmin).
  simpl in Hlog. rewrite Nat.sub_0_r in Hlog. done.
Qed.

Lemma scroll_reviews_attempt_bounds_witness :
  _scroll_reviews (scraper 4) (page ever_growing []) init_state
  = ({| driver := false; log := replicate 4 scroll_command |},
     Ok {[ "r"; "ir"; "iir"; "iiir" ]}) ∧
  ∃ n, replicate 4 scroll_command
       = (log init_state ++ replicate n scroll_command)%list ∧
       false = driver init_state ∧
       Nat.min max_stale (Z.to_nat 4) ≤ n ∧ n ≤ Z.to_nat 4.
Proof.
  assert (_scroll_reviews (scraper 4) (page ever_growing []) init_state
          = ({| driver := false; log := replicate 4 scroll_command |},
             Ok {[ "r"; "ir"; "iir"; "iiir" ]})) as Hrun by (vm_compute; reflexivity).
  split; [exact Hrun|].
  exact (scroll_reviews_attempt_bounds _ _ _ _ _ Hrun).
Defined.



(** ** What the loop counts *)

Lemma collect_ids_set elements acc c :
  collect_ids elements acc = Ok c →
  c = acc ∪ list_to_set (omap element_id elements) ∧
  Forall (fun el => is_Ok (get_attribute el "data-review-id") = true) elements.
Proof.
  revert acc. induction elements as [|el rest IH]; intros acc; simpl.
  - intros [= <-]. split; [set_solver|constructor].
  - unfold mbind, result_bind, element_id.
    destruct (get_attribute el "data-review-id") as [rid|] eqn:Hget; [|done].
    intros [-> Hrest]%IH. split; [|constructor; [by rewrite Hget|done]].
    destruct (truthy (or_empty rid)); simpl; set_solver.
Qed.

Lemma size_list_to_set_omap (elements : list WebElement) :
  size (list_to_set (omap element_id elements) : gset string) ≤ List.length elements.
Proof.
  induction elements as [|el rest IH]; [done|].
  change (omap element_id (el :: rest))
    with (match element_id el with
          | Some id => id :: omap element_id rest
          | None => omap element_id rest
          end).
  cbn [List.length]. destruct (element_id el) as [id|]; [|lia].
  cbn [list_to_set foldr]. rewrite size_union_alt, size_singleton.
  assert (size (list_to_set (omap element_id rest) ∖ ({[id]} : gset string))
          ≤ size (list_to_set (omap element_id rest) : gset string)).
  { apply subseteq_size. set_solver. }
  lia.
Qed.

(** X3.  The identifiers an attempt of the scroll loop reads are the set of
    the non-empty [data-review-id] values of the elements then present:
    their order and their repetitions do not count, so there are at most as
    many as elements; and the attempt reads them only when every element
    gave its attribute. *)
Theorem current_ids_of_elements s n c :
  current_at s n = Ok c →
  ∃ elements,
    scroll_elements s n = Ok elements ∧
    c = list_to_set (omap element_id elements) ∧
    size c ≤ List.length elements ∧
    Forall (fun el => is_Ok (get_attribute el "data-review-id") = true) elements.
Proof.
  unfold current_at, mbind, result_bind.
  destruct (scroll_script s n); [|done].
  destruct (scroll_elements s n) as [elements|]; [|done].
  intros [-> Hall]%collect_ids_set. exists elements.
  split_and!; [done|set_solver| |done].
  rewrite union_empty_l_L. apply size_list_to_set_omap.
Qed.

Lemma current_ids_of_elements_witness :
  current_at (page (fun _ => ["r1"; "r1"; ""]) []) 0 = Ok {[ "r1" ]} ∧
  ∃ elements,
    scroll_elements (page (fun _ => ["r1"; "r1"; ""]) []) 0 = Ok elements ∧
    ({[ "r1" ]} : gset string) = list_to_set (omap element_id elements) ∧
    size ({[ "r1" ]} : gset string) ≤ List.length elements ∧
    Forall (fun el => is_Ok (get_attribute el "data-review-id") = true) elements.
Proof.
  assert (current_at (page (fun _ => ["r1"; "r1"; ""]) []) 0 = Ok {[ "r1" ]}) as Hcur
    by (vm_compute; reflexivity).
  split; [exact Hcur|].
  exact (current_ids_of_elements _ _ _ Hcur).
Defined.

(** ** Expansion of the truncated reviews *)

Lemma click_all_log buttons σ :
  click_all buttons σ
  = ({| driver := driver σ;
        log := log σ ++ replicate (List.length buttons) click_command |}, Ok tt).
Proof.
  revert σ. induction buttons as [|btn rest IH]; intros σ; simpl.
  - unfold mret, ST_ret. rewrite app_nil_r. by destruct σ.
  - unfold mbind, ST_bind, try_except, call.
    destruct (script_click btn) as [[]|e]; simpl; rewrite IH; simpl;
      by rewrite <- app_assoc.
Qed.

(** X4.  [_expand_see_more] is best effort: once the lookup of the "See
    more" buttons has answered, it clicks every button once, in order, goes
    on after a click that raises, and returns without an exception. *)
Theorem expand_see_more_clicks_all s σ buttons :
  see_more_buttons s = Ok buttons →
  _expand_see_more s σ
  = ({| driver := driver σ;
        log := log σ ++ replicate (List.length buttons) click_command |}, Ok tt).
Proof.
  intros Hbuttons. unfold _expand_see_more.
  rewrite bind_liftR, Hbuttons. apply click_all_log.
Qed.

Lemma expand_see_more_clicks_all_witness :
  see_more_buttons see_more_page
  = Ok [leaf "See more" []; covered_button; leaf "See more" []] ∧
  script_click covered_button
  = Raise (mk_exn WebDriverException "element click intercepted") ∧
  _expand_see_more see_more_page init_state
  = ({| driver := false; log := [click_command; click_command; click_command] |}, Ok tt).
Proof.
  split; [reflexivity|]. split; [reflexivity|].
  exact (expand_see_more_clicks_all see_more_page init_state _ eq_refl).
Defined.

(** ** The reviews tab *)

Section ReviewsTab.

Variable s : Session.

(** One turn of the loop over the tab candidates. *)
Lemma tabs_loop_cons xpath rest σ :
  tabs_loop s (xpath :: rest) σ
  = match wait_clickable s xpath with
    | Raise e =>
        if subclass (class_of e) TimeoutException then tabs_loop s rest σ
        else (σ, Raise e)
    | Ok tab =>
        let σ1 := {| driver := driver σ; log := log σ ++ [click_command] |} in
        match script_click tab with
        | Ok _ => (σ1, Ok true)
        | Raise e =>
            if subclass (class_of e) TimeoutException then tabs_loop s rest σ1
            else (σ1, Raise e)
        end
    end.
Proof.
  cbn [tabs_loop]. unfold mbind, ST_bind, try_except, liftR, call, mret, ST_ret.
  destruct (wait_clickable s xpath) as [tab|e]; cbn [List.find fst snd].
  - destruct (script_click tab) as [[]|e]; cbn [List.find fst snd]; [done|].
    by destruct (subclass (class_of e) TimeoutException).
  - by destruct (subclass (class_of e) TimeoutException).
Qed.

Lemma tabs_loop_false candidates σ σ' :
  tabs_loop s candidates σ = (σ', Ok false) → Forall (tab_timed_out s) candidates.
Proof.
  revert σ. induction candidates as [|xpath rest IH]; intros σ; [constructor|].
  rewrite tabs_loop_cons. unfold tab_timed_out at 1.
  destruct (wait_clickable s xpath) as [tab|e] eqn:Hwait.
  - destruct (script_click tab) as [[]|e] eqn:Hclick; [done|].
    destruct (subclass (class_of e) TimeoutException) eqn:Hcls; [|done].
    intros Hrest%IH. constructor; [|done].
    unfold tab_timed_out. rewrite Hwait. eauto.
  - destruct (subclass (class_of e) TimeoutException) eqn:Hcls; [|done].
    intros Hrest%IH. constructor; [|done].
    unfold tab_timed_out. by rewrite Hwait.
Qed.

Lemma tabs_loop_timed_out candidates σ :
  Forall (tab_timed_out s) candidates →
  snd (tabs_loop s candidates σ) = Ok false.
Proof.
  intros Hall. revert σ.
  induction Hall as [|xpath rest Hx _ IH]; intros σ; [done|].
  rewrite tabs_loop_cons. unfold tab_timed_out in Hx.
  destruct (wait_clickable s xpath) as [tab|e].
  - destruct Hx as (e & -> & ->). apply IH.
  - rewrite Hx. apply IH.
Qed.

Lemma tabs_loop_true candidates σ σ' :
  tabs_loop s candidates σ = (σ', Ok true) →
  ∃ before xpath after tab,
    candidates = (before ++ xpath :: after)%list ∧
    Forall (tab_timed_out s) before ∧
    wait_clickable s xpath = Ok tab ∧ script_click tab = Ok tt ∧
    ∃ l, log σ' = (log σ ++ l ++ [click_command])%list ∧
         Forall (fun c => c = click_command) l ∧
         List.length l ≤ List.length before.
Proof.
  revert σ. induction candidates as [|xpath rest IH]; intros σ; [done|].
  rewrite tabs_loop_cons.
  destruct (wait_clickable s xpath) as [tab|e] eqn:Hwait.
  - destruct (script_click tab) as [[]|e] eqn:Hclick.
    + intros [= <-]. exists [], xpath, rest, tab.
      split_and!; [done|constructor|done..|]. exists []. by simpl.
    + destruct (subclass (class_of e) TimeoutException) eqn:Hcls; [|done].
      intros (before & x & after & tab' & -> & Hb & Hw & Hc & l & Hl & Hall & Hlen)%IH.
      exists (xpath :: before), x, after, tab'.
      split_and!; [done| |done..|].
      { constructor; [|done]. unfold tab_timed_out. rewrite Hwait. eauto. }
      exists (click_command :: l). simpl in *.
      rewrite Hl, <- app_assoc. split_and!; [done|by constructor|lia].
  - destruct (subclass (class_of e) TimeoutException) eqn:Hcls; [|done].
    intros (before & x & after & tab' & -> & Hb & Hw & Hc & l & Hl & Hall & Hlen)%IH.
    exists (xpath :: before), x, after, tab'.
    split_and!; [done| |done..|].
    { constructor; [|done]. unfold tab_timed_out. by rewrite Hwait. }
    exists l. simpl. split_and!; [done..|lia].
Qed.

Lemma tabs_loop_raise candidates σ σ' e :
  tabs_loop s candidates σ = (σ', Raise e) →
  subclass (class_of e) TimeoutException = false ∧
  ∃ xpath, xpath ∈ candidates ∧
    (wait_clickable s xpath = Raise e ∨
     ∃ tab, wait_clickable s xpath = Ok tab ∧ script_click tab = Raise e).
Proof.
  revert σ. induction candidates as [|xpath rest IH]; intros σ; [done|].
  rewrite tabs_loop_cons.
  destruct (wait_clickable s xpath) as [tab|e0] eqn:Hwait.
  - destruct (script_click tab) as [[]|e0] eqn:Hclick; [done|].
    destruct (subclass (class_of e0) TimeoutException) eqn:Hcls.
    + intros (? & x & Hx & Hor)%IH. split; [done|]. exists x. split; [by right|done].
    + intros [= _ <-]. split; [done|]. exists xpath. split; [by left|]. right. eauto.
  - destruct (subclass (class_of e0) TimeoutException) eqn:Hcls.
    + intros (? & x & Hx & Hor)%IH. split; [done|]. exists x. split; [by right|done].
    + intros [= _ <-]. split; [done|]. exists xpath. split; [by left|]. by left.
Qed.

(** [_open_reviews_tab] in terms of the loop. *)
Lemma open_reviews_tab_eq σ :
  _open_reviews_tab s σ
  = match tabs_loop s possible_tabs σ with
    | (σ', Ok true) => (σ', Ok tt)
    | (σ', Ok false) =>
        (σ', Raise (mk_exn Exception
                      ("Could not open reviews section: "
                       +:+ "Could not find the reviews tab on the page")))
    | (σ', Raise e) =>
        (σ', Raise (mk_exn Exception ("Could not open reviews section: " +:+ str e)))
    end.
Proof.
  unfold _open_reviews_tab, try_except, mbind, ST_bind.
  by destruct (tabs_loop s possible_tabs σ) as [σ' [[]|e]].
Qed.

End ReviewsTab.

(** X5.  When every tab candidate times out, at the wait or at the click,
    [_open_reviews_tab] raises a plain [Exception] whose message is the one
    of the missing tab under the prefix of the step. *)
Theorem open_reviews_tab_not_found s σ :
  Forall (tab_timed_out s) possible_tabs →
  snd (_open_reviews_tab s σ)
  = Raise (mk_exn Exception
             "Could not open reviews section: Could not find the reviews tab on the page").
Proof.
  intros Hall. rewrite open_reviews_tab_eq.
  pose proof (tabs_loop_timed_out s possible_tabs σ Hall) as Hloop.
  destruct (tabs_loop s possible_tabs σ) as [σ' r]. simpl in Hloop. by subst r.
Qed.

Lemma no_tab_page_timed_out : Forall (tab_timed_out no_tab_page) possible_tabs.
Proof. by repeat constructor. Qed.

Lemma open_reviews_tab_not_found_witness :
  Forall (tab_timed_out no_tab_page) possible_tabs ∧
  snd (_open_reviews_tab no_tab_page init_state)
  = Raise (mk_exn Exception
             "Could not open reviews section: Could not find the reviews tab on the page").
Proof.
  split; [exact no_tab_page_timed_out|].
  exact (open_reviews_tab_not_found no_tab_page init_state no_tab_page_timed_out).
Defined.

(** X6.  Whatever makes [_open_reviews_tab] fail, it raises a plain
    [Exception] under the prefix of the step, so the class of the cause is
    lost.  The cause is either that every candidate timed out, or an
    exception other than a timeout that the wait for a candidate or the
    click on it raised, whose message follows the prefix. *)
Theorem open_reviews_tab_raises s σ σ' e :
  _open_reviews_tab s σ = (σ', Raise e) →
  class_of e = Exception ∧
  ((Forall (tab_timed_out s) possible_tabs ∧
    str e = "Could not open reviews section: Could not find the reviews tab on the page") ∨
   (∃ xpath cause,
      xpath ∈ possible_tabs ∧
      subclass (class_of cause) TimeoutException = false ∧
      (wait_clickable s xpath = Raise cause ∨
       ∃ tab, wait_clickable s xpath = Ok tab ∧ script_click tab = Raise cause) ∧
      str e = "Could not open reviews section: " +:+ str cause)).
Proof.
  rewrite open_reviews_tab_eq.
  destruct (tabs_loop s possible_tabs σ) as [σ1 [[]|cause]] eqn:Hloop; [done|..].
  - intros [= _ <-]. split; [done|]. left.
    split; [by eapply tabs_loop_false|done].
  - intros [= _ <-]. split; [done|]. right.
    destruct (tabs_loop_raise _ _ _ _ _ Hloop) as (Hcls & xpath & Hin & Hor).
    by exists xpath, cause.
Qed.

Lemma open_reviews_tab_raises_witness :
  let e := mk_exn Exception
             "Could not open reviews section: Could not find the reviews tab on the page" in
  _open_reviews_tab no_tab_page init_state = (init_state, Raise e) ∧
  class_of e = Exception ∧
  ((Forall (tab_timed_out no_tab_page) possible_tabs ∧
    str e = "Could not open reviews section: Could not find the reviews tab on the page") ∨
   (∃ xpath cause,
      xpath ∈ possible_tabs ∧
      subclass (class_of cause) TimeoutException = false ∧
      (wait_clickable no_tab_page xpath = Raise cause ∨
       ∃ tab, wait_clickable no_tab_page xpath = Ok tab ∧ script_click tab = Raise cause) ∧
      str e = "Could not open reviews section: " +:+ str cause)).
Proof.
  intros e.
  assert (_open_reviews_tab no_tab_page init_state = (init_state, Raise e)) as Hrun
    by reflexivity.
  split; [exact Hrun|].
  exact (open_reviews_tab_raises _ _ _ _ Hrun).
Defined.

(** X7.  When [_open_reviews_tab] returns, it has clicked exactly one tab
    with success: that of the first candidate, in the order of the list,
    which became clickable and whose click did not raise.  Every candidate
    before it timed out, the candidates after it were not tried, and the
    click on the tab is the last command issued. *)
Theorem open_reviews_tab_first_clickable s σ σ' :
  _open_reviews_tab s σ = (σ', Ok tt) →
  ∃ before xpath after tab,
    possible_tabs = (before ++ xpath :: after)%list ∧
    Forall (tab_timed_out s) before ∧
    wait_clickable s xpath = Ok tab ∧ script_click tab = Ok tt ∧
    ∃ l, log σ' = (log σ ++ l ++ [click_command])%list ∧
         Forall (fun c => c = click_command) l ∧
         List.length l ≤ List.length before.
Proof.
  rewrite open_reviews_tab_eq.
  destruct (tabs_loop s possible_tabs σ) as [σ1 [[]|cause]] eqn:Hloop; [|done..].
  intros [= <-]. by apply tabs_loop_true.
Qed.

Lemma open_reviews_tab_first_clickable_witness :
  _open_reviews_tab second_tab_page init_state
  = ({| driver := false; log := [click_command] |}, Ok tt) ∧
  ∃ before xpath after tab,
    possible_tabs = (before ++ xpath :: after)%list ∧
    Forall (tab_timed_out second_tab_page) before ∧
    wait_clickable second_tab_page xpath = Ok tab ∧ script_click tab = Ok tt ∧
    ∃ l, [click_command] = (log init_state ++ l ++ [click_command])%list ∧
         Forall (fun c => c = click_command) l ∧
         List.length l ≤ List.length before.
Proof.
  assert (_open_reviews_tab second_tab_page init_state
          = ({| driver := false; log := [click_command] |}, Ok tt)) as Hrun
    by (vm_compute; reflexivity).
  split; [exact Hrun|].
  exact (open_reviews_tab_first_clickable _ _ _ Hrun).
Defined.

(** ** What [scrape] raises *)

(** X8.  [scrape] raises in two ways only.  Either its [try] block raised,
    and the exception is a plain [Exception] whose message is that of the
    cause under the prefix ["Scraping failed: "], so the class of the cause
    is lost; or the driver existed and [quit] raised in the [finally]
    block, and that exception comes out as it is. *)
Theorem scrape_raises self s σ e :
  snd (scrape self s σ) = Raise e →
  (∃ cause,
     snd (scrape_try self s σ) = Raise cause ∧
     e = mk_exn Exception ("Scraping failed: " +:+ str cause)) ∨
  (driver (fst (scrape_try self s σ)) = true ∧ quit s = Raise e).
Proof.
  unfold scrape, try_finally, try_except.
  destruct (scrape_try self s σ) as [σ1 [rv|cause]]; simpl.
  - unfold scrape_finally, call. destruct (driver σ1); [|done].
    destruct (quit s) as [[]|e']; [done|]. intros [= <-]. by right.
  - unfold raise, scrape_finally, call. destruct (driver σ1).
    + destruct (quit s) as [[]|e']; intros [= <-]; [left|right]; eauto.
    + intros [= <-]. left. eauto.
Qed.

Lemma scrape_raises_witness :
  snd (scrape (scraper 500) no_tab_page init_state)
  = Raise (mk_exn Exception
             "Scraping failed: Could not open reviews section: Could not find the reviews tab on the page") ∧
  ((∃ cause,
      snd (scrape_try (scraper 500) no_tab_page init_state) = Raise cause ∧
      mk_exn Exception
        "Scraping failed: Could not open reviews section: Could not find the reviews tab on the page"
      = mk_exn Exception ("Scraping failed: " +:+ str cause)) ∨
   (driver (fst (scrape_try (scraper 500) no_tab_page init_state)) = true ∧
    quit no_tab_page
    = Raise (mk_exn Exception
               "Scraping failed: Could not open reviews section: Could not find the reviews tab on the page"))).
Proof.
  assert (snd (scrape (scraper 500) no_tab_page init_state)
          = Raise (mk_exn Exception
                     "Scraping failed: Could not open reviews section: Could not find the reviews tab on the page"))
    as Hrun by (vm_compute; reflexivity).
  split; [exact Hrun|].
  exact (scrape_raises _ _ _ _ Hrun).
Defined.

(** X9.  An exception of [quit] replaces the outcome of the harvest: when
    the driver was created and [quit] raises, [scrape] raises that
    exception, unwrapped, whatever its [try] block did, the records of a
    harvest that had succeeded included. *)
Theorem scrape_quit_failure self s σ e :
  Chrome s (chromedriver_path self) = Ok tt →
  quit s = Raise e →
  snd (scrape self s σ) = Raise e.
Proof.
  intros Hchrome Hquit.
  destruct (scrape_try_acquires self s σ Hchrome) as (Hd & _).
  unfold scrape, try_finally.
  pose proof (scrape_except_state self s σ) as Hstate.
  destruct (try_except _ _ σ) as [σ1 r]. simpl in Hstate. subst σ1.
  unfold scrape_finally, call. by rewrite Hd, Hquit.
Qed.

Lemma scrape_quit_failure_witness :
  snd (scrape_try (scraper 500) quit_fails_page init_state) = Ok [full_record] ∧
  Chrome quit_fails_page (chromedriver_path (scraper 500)) = Ok tt ∧
  quit quit_fails_page = Raise browser_gone ∧
  snd (scrape (scraper 500) quit_fails_page init_state) = Raise browser_gone.
Proof.
  split; [vm_compute; reflexivity|]. split; [reflexivity|]. split; [reflexivity|].
  exact (scrape_quit_failure (scraper 500) quit_fails_page init_state _ eq_refl eq_refl).
Defined.

(** X10.  When the driver cannot be created, a scraper whose [driver] is
    unset issues no other command than the attempt to create it: it does not
    navigate, and the [finally] block does not call [quit]. *)
Theorem scrape_without_driver self s σ e :
  driver σ = false →
  Chrome s (chromedriver_path self) = Raise e →
  scrape self s σ
  = ({| driver := false;
        log := log σ ++ [NewChrome (chromedriver_path self)] |},
     Raise (mk_exn Exception ("Scraping failed: " +:+ str e))).
Proof.
  intros Hd Hchrome.
  unfold scrape, try_finally, try_except, scrape_try, _setup_driver.
  unfold mbind, ST_bind, call at 1. rewrite Hchrome. simpl.
  unfold scrape_finally. simpl. by rewrite Hd.
Qed.

Lemma scrape_without_driver_witness :
  driver init_state = false ∧
  Chrome no_chromedriver "/usr/bin/chromedriver"
  = Raise (mk_exn FileNotFoundError
             "[Errno 2] No such file or directory: '/usr/bin/chromedriver'") ∧
  scrape (scraper 500) no_chromedriver init_state
  = ({| driver := false; log := [NewChrome "/usr/bin/chromedriver"] |},
     Raise (mk_exn Exception
              "Scraping failed: [Errno 2] No such file or directory: '/usr/bin/chromedriver'")).
Proof.
  split; [reflexivity|]. split; [reflexivity|].
  exact (scrape_without_driver (scraper 500) no_chromedriver init_state _ eq_refl eq_refl).
Defined.

(** ** The records of a harvest *)

Lemma extracted_subject cn pn r rv :
  extracted cn pn r = Some rv →
  company_name rv = cn ∧ phone_number rv = pn ∧ truthy (review_id rv) = true.
Proof.
  intros Hrv.
  destruct (extracted_review_id _ _ _ _ Hrv) as (o & _ & Hne & Hid).
  rewrite Hid. split_and!; [..|done].
  all: unfold extracted, extract_review, mbind, result_bind in Hrv.
  all: destruct (get_attribute r "data-review-id") as [o'|]; [|done].
  all: destruct (negb (truthy (or_empty o'))); [done|].
  all: destruct (rating_field r); [|done].
  all: do 3 (destruct (text_field r _); [|done]).
  all: by injection Hrv as <-.
Qed.

(** X11.  Every record of a harvest carries the place name and the phone
    number that [_extract_company_info] gave for the page, the same for all
    records, and a non-empty identifier. *)
Theorem scrape_records_subject self s σ σ' reviews :
  scrape self s σ = (σ', Ok reviews) →
  ∃ name phone,
    _extract_company_info s = Ok (name, phone) ∧
    Forall (fun rv => company_name rv = name ∧ phone_number rv = phone ∧
                      review_id rv ≠ "") reviews.
Proof.
  intros (name & phone & Hinfo & Hrv)%scrape_extract_reviews.
  exists name, phone. split; [done|].
  apply extract_reviews_omap in Hrv as (elements & _ & ->).
  apply Forall_forall. intros rv (r & _ & Hr)%list_elem_of_omap.
  destruct (extracted_subject _ _ _ _ Hr) as (Hn & Hp & Hid).
  split_and!; [done..|]. intros Hempty. by rewrite Hempty in Hid.
Qed.

Lemma scrape_records_subject_witness :
  scrape (scraper 500) phone_page init_state
  = ({| driver := true; log := harvest_log 9 |},
     Ok [ {| review_id := "r1"; reviewer := "Ada"; rating := Some "5 stars";
             review_text := "Great coffee."; date := "2 weeks ago";
             company_name := "Cafe Luna"; phone_number := "+1 555 0100" |} ]) ∧
  ∃ name phone,
    _extract_company_info phone_page = Ok (name, phone) ∧
    Forall (fun rv => company_name rv = name ∧ phone_number rv = phone ∧
                      review_id rv ≠ "")
      [ {| review_id := "r1"; reviewer := "Ada"; rating := Some "5 stars";
           review_text := "Great coffee."; date := "2 weeks ago";
           company_name := "Cafe Luna"; phone_number := "+1 555 0100" |} ].
Proof.
  assert (scrape (scraper 500) phone_page init_state
          = ({| driver := true; log := harvest_log 9 |},
             Ok [ {| review_id := "r1"; reviewer := "Ada"; rating := Some "5 stars";
                     review_text := "Great coffee."; date := "2 weeks ago";
                     company_name := "Cafe Luna"; phone_number := "+1 555 0100" |} ]))
    as Hrun by (vm_compute; reflexivity).
  split; [exact Hrun|].
  exact (scrape_records_subject _ _ _ _ _ Hrun).
Defined.

(** X12.  The extraction pass treats each element on its own.  An element
    that gives no record, because reading it raised (a stale element, say)
    or because its identifier is empty, is skipped without a trace: the
    records are those of the elements before it followed by those of the
    elements after it, as if it were not on the page. *)
Theorem extraction_skips_element cn pn before r after :
  extracted cn pn r = None →
  extract_loop cn pn (before ++ r :: after) []
  = (extract_loop cn pn before [] ++ extract_loop cn pn after [])%list ∧
  extract_loop cn pn (before ++ r :: after) []
  = extract_loop cn pn (before ++ after) [].
Proof.
  intros Hr. rewrite !extract_loop_omap. simpl.
  rewrite !omap_app. simpl. by rewrite Hr.
Qed.

Lemma extraction_skips_element_witness :
  extracted "Cafe Luna" "" stale_review = None ∧
  extract_loop "Cafe Luna" "" ([full_review] ++ stale_review :: [second_review]) []
  = [full_record; second_record] ∧
  extract_loop "Cafe Luna" "" ([full_review] ++ stale_review :: [second_review]) []
  = extract_loop "Cafe Luna" "" ([full_review] ++ [second_review]) [].
Proof.
  split; [reflexivity|].
  exact (extraction_skips_element "Cafe Luna" "" [full_review] stale_review
           [second_review] eq_refl).
Defined.

(** ** The background run *)

Section Run.

Variable CHROMEDRIVER_PATH : string.
Variable env : Env.
Variables id url : string.

(** An update of the job a server holds under [id]. *)
Lemma update_job_inserted (f : Job → Job) jobs fs job :
  update_job id f {| jobs_db := <[id := job]> jobs; files := fs |}
  = ({| jobs_db := <[id := f job]> jobs; files := fs |}, Ok tt).
Proof.
  unfold update_job. simpl. by rewrite lookup_insert_eq, insert_insert_eq.
Qed.

(** The [try] block for a job that is in [jobs_db]. *)
Lemma run_scraper_body_outcome σ job :
  jobs_db σ !! id = Some job →
  run_scraper_body CHROMEDRIVER_PATH env id url σ
  = match body_outcome CHROMEDRIVER_PATH env url id with
    | Ok reviews => (stored env id σ job reviews, Ok tt)
    | Raise e =>
        ({| jobs_db := <[id := set_processing (now_started env) job]> (jobs_db σ);
            files := files_after_failure CHROMEDRIVER_PATH env url id σ |}, Raise e)
    end.
Proof.
  intros Hjob. rewrite (run_scraper_body_scrape _ _ _ _ _ _ Hjob).
  unfold body_outcome, files_after_failure, file_opened, stored, output_path.
  unfold mbind, result_bind, ST_bind, liftR, mret, ST_ret, open_file, write_file.
  destruct (snd (scrape _ (session env) init_state)) as [reviews|e]; [|done].
  cbv zeta. case_bool_decide as Hempty; [done|].
  destruct (mkdir env) as [[]|e]; [|done].
  destruct (open_write env _) as [[]|e]; [|done].
  destruct (dump env _) as [[]|e]; simpl.
  - rewrite update_job_inserted. by rewrite insert_insert_eq.
  - by rewrite insert_insert_eq.
Qed.

(** The run for a job that is in [jobs_db]: it never raises. *)
Lemma run_scraper_sync_outcome σ job :
  jobs_db σ !! id = Some job →
  run_scraper_sync CHROMEDRIVER_PATH env id url σ
  = match body_outcome CHROMEDRIVER_PATH env url id with
    | Ok reviews => (stored env id σ job reviews, Ok tt)
    | Raise e => (failed_with CHROMEDRIVER_PATH env url id σ job e, Ok tt)
    end.
Proof.
  intros Hjob. unfold run_scraper_sync, try_except.
  rewrite (run_scraper_body_outcome _ _ Hjob).
  destruct (body_outcome CHROMEDRIVER_PATH env url id) as [reviews|e]; [done|].
  unfold failed_with, recorded_failure.
  cbn [List.find fst snd subclass].
  case_bool_decide; [apply update_job_inserted|].
  case_bool_decide; apply update_job_inserted.
Qed.

(** The run for an identifier that is not in [jobs_db]: the handler for
    [Exception] raises the [KeyError] again. *)
Lemma run_scraper_sync_absent σ :
  jobs_db σ !! id = None →
  run_scraper_sync CHROMEDRIVER_PATH env id url σ
  = (σ, Raise (mk_exn KeyError ("'" +:+ id +:+ "'"))).
Proof.
  intros Hjob.
  assert (∀ f, update_job id f σ = (σ, Raise (mk_exn KeyError ("'" +:+ id +:+ "'"))))
    as Hupdate.
  { intros f. unfold update_job. by rewrite Hjob. }
  unfold run_scraper_sync, try_except, run_scraper_body.
  rewrite (bind_Raise _ _ _ _ _ (Hupdate _)).
  cbn [List.find fst snd subclass class_of].
  rewrite !bool_decide_eq_false_2 by done. apply Hupdate.
Qed.

End Run.

Lemma body_outcome_stored CHROMEDRIVER_PATH env url id reviews :
  snd (scrape (job_scraper CHROMEDRIVER_PATH url) (session env) init_state) = Ok reviews →
  reviews ≠ [] →
  mkdir env = Ok tt →
  open_write env (output_path id) = Ok tt →
  dump env (output_path id) = Ok tt →
  body_outcome CHROMEDRIVER_PATH env url id = Ok reviews.
Proof.
  intros Hscrape Hne Hmkdir Hopen Hdump. unfold body_outcome, mbind, result_bind.
  rewrite Hscrape, Hmkdir, Hopen, Hdump. by rewrite bool_decide_eq_false_2.
Qed.

(** X13.  From submission to download.  A job submitted under a fresh or a
    used token cannot be downloaded before its run (400); when the harvest
    of its run returns a non-empty list and the output file can be written
    (the directory made, the file opened, the records dumped and the file
    closed), the run returns without an exception, the job is ["completed"] with the
    submitted URL, the count of the records and the path of its file, and
    the download gives back the very list the harvest returned. *)
Theorem submitted_job_completes CHROMEDRIVER_PATH env uuid4 now url σ reviews :
  snd (scrape (job_scraper CHROMEDRIVER_PATH url) (session env) init_state) = Ok reviews →
  reviews ≠ [] →
  mkdir env = Ok tt →
  open_write env (output_path uuid4) = Ok tt →
  dump env (output_path uuid4) = Ok tt →
  let σ1 := fst (start_scrape uuid4 now url σ) in
  let run := run_scraper_sync CHROMEDRIVER_PATH env uuid4 url σ1 in
  download_results σ1 uuid4 = HTTPException 400 "Job not completed yet" ∧
  snd run = Ok tt ∧
  download_results (fst run) uuid4 = Return (uuid4, reviews) ∧
  get_job_status (fst run) uuid4
  = Return {| job_id := uuid4; status := "completed"; created_at := now;
              job_maps_url := url;
              started_at := Some (now_started env);
              completed_at := Some (now_completed env);
              total_reviews := Some (Z.of_nat (List.length reviews));
              output_file := Some (output_path uuid4);
              error := None; error_trace := None; error_type := None |}.
Proof.
  intros Hscrape Hne Hmkdir Hopen Hdump σ1 run.
  assert (jobs_db σ1 !! uuid4
          = Some {| job_id := uuid4; status := "queued"; created_at := now;
                    job_maps_url := url; started_at := None; completed_at := None;
                    total_reviews := None; output_file := None; error := None;
                    error_trace := None; error_type := None |}) as Hjob
    by apply lookup_insert_eq.
  split.
  { unfold download_results. by rewrite Hjob. }
  subst run. rewrite (run_scraper_sync_outcome _ _ _ _ _ _ Hjob).
  rewrite (body_outcome_stored _ _ _ _ _ Hscrape Hne Hmkdir Hopen Hdump).
  unfold download_results, get_job_status, stored. simpl.
  rewrite !lookup_insert_eq. simpl. by rewrite lookup_insert_eq.
Qed.

Lemma submitted_job_completes_witness :
  let env := background (page three_then_still twin_reviews) in
  let σ1 := fst (start_scrape "job-1" "2024-05-01T09:59:59" place_url initial_server) in
  let run := run_scraper_sync "/usr/bin/chromedriver" env "job-1" place_url σ1 in
  snd (scrape (job_scraper "/usr/bin/chromedriver" place_url) (session env) init_state)
  = Ok [full_record; bare_record] ∧
  download_results σ1 "job-1" = HTTPException 400 "Job not completed yet" ∧
  snd run = Ok tt ∧
  download_results (fst run) "job-1" = Return ("job-1", [full_record; bare_record]) ∧
  get_job_status (fst run) "job-1"
  = Return {| job_id := "job-1"; status := "completed";
              created_at := "2024-05-01T09:59:59"; job_maps_url := place_url;
              started_at := Some "2024-05-01T10:00:00";
              completed_at := Some "2024-05-01T10:05:00";
              total_reviews := Some 2%Z;
              output_file := Some "output/job-1.json";
              error := None; error_trace := None; error_type := None |}.
Proof.
  intros env σ1 run.
  assert (snd (scrape (job_scraper "/usr/bin/chromedriver" place_url) (session env)
                 init_state) = Ok [full_record; bare_record]) as Hscrape
    by (vm_compute; reflexivity).
  split; [exact Hscrape|].
  exact (submitted_job_completes "/usr/bin/chromedriver" env "job-1"
           "2024-05-01T09:59:59" place_url initial_server _ Hscrape
           ltac:(discriminate) eq_refl eq_refl eq_refl).
Defined.



(** X15.  The clause for [FileNotFoundError] is reached by the output file,
    not by the driver: when the harvest returned records and creating the
    directory or opening the file raises [FileNotFoundError], the job is
    ["failed"] with [error_type] ["chromedriver_not_found"] and the message
    "ChromeDriver not found at" followed by the driver path; the records are
    not stored. *)
Theorem output_failure_recorded_as_chromedriver CHROMEDRIVER_PATH env id url σ job
    reviews e :
  jobs_db σ !! id = Some job →
  snd (scrape (job_scraper CHROMEDRIVER_PATH url) (session env) init_state) = Ok reviews →
  reviews ≠ [] →
  mkdir env = Raise e ∨ (mkdir env = Ok tt ∧ open_write env (output_path id) = Raise e) →
  class_of e = FileNotFoundError →
  let run := run_scraper_sync CHROMEDRIVER_PATH env id url σ in
  files (fst run) = files σ ∧
  ∃ job',
    jobs_db (fst run) !! id = Some job' ∧
    status job' = "failed" ∧
    error_type job' = Some "chromedriver_not_found" ∧
    error job' = Some ("ChromeDriver not found at " +:+ CHROMEDRIVER_PATH) ∧
    output_file job' = output_file job.
Proof.
  intros Hjob Hscrape Hne Hfs Hcls run. subst run.
  rewrite (run_scraper_sync_outcome _ _ _ _ _ _ Hjob).
  assert (body_outcome CHROMEDRIVER_PATH env url id = Raise e) as ->.
  { unfold body_outcome, mbind, result_bind. rewrite Hscrape.
    rewrite bool_decide_eq_false_2 by done.
    destruct Hfs as [->|[-> ->]]; done. }
  assert (file_opened CHROMEDRIVER_PATH env url id = false) as Hclosed.
  { unfold file_opened. rewrite Hscrape.
    destruct Hfs as [->|[-> ->]]; [by rewrite andb_false_r|by rewrite andb_false_r]. }
  simpl. unfold files_after_failure. rewrite Hclosed.
  split; [done|]. eexists. split; [apply lookup_insert_eq|].
  unfold recorded_failure. by rewrite bool_decide_eq_true_2.
Qed.

Lemma output_failure_recorded_as_chromedriver_witness :
  let env := output_dir_gone (page three_then_still twin_reviews) in
  let run := run_scraper_sync "/usr/bin/chromedriver" env "job-1" place_url
               queued_server in
  snd (scrape (job_scraper "/usr/bin/chromedriver" place_url) (session env) init_state)
  = Ok [full_record; bare_record] ∧
  files (fst run) = files queued_server ∧
  ∃ job',
    jobs_db (fst run) !! "job-1" = Some job' ∧
    status job' = "failed" ∧
    error_type job' = Some "chromedriver_not_found" ∧
    error job' = Some "ChromeDriver not found at /usr/bin/chromedriver" ∧
    output_file job' = None.
Proof.
  intros env run.
  assert (snd (scrape (job_scraper "/usr/bin/chromedriver" place_url) (session env)
                 init_state) = Ok [full_record; bare_record]) as Hscrape
    by (vm_compute; reflexivity).
  split; [exact Hscrape|].
  exact (output_failure_recorded_as_chromedriver "/usr/bin/chromedriver" env "job-1"
           place_url queued_server _ _ _ (lookup_insert_eq _ _ _) Hscrape
           ltac:(discriminate) (or_intror (conj eq_refl eq_refl)) eq_refl).
Defined.

(** X16.  The background run of an identifier that is not in [jobs_db]
    raises [KeyError]: the first statement of the [try] block raises it, the
    clause for [Exception] catches it and raises it again when it looks the
    job up.  The server is left as it was. *)
Theorem run_scraper_sync_unknown_job CHROMEDRIVER_PATH env id url σ :
  jobs_db σ !! id = None →
  ∃ e, run_scraper_sync CHROMEDRIVER_PATH env id url σ = (σ, Raise e) ∧
       class_of e = KeyError.
Proof.
  intros Hjob.
  exists (mk_exn KeyError ("'" +:+ id +:+ "'")). split; [|done].
  by apply run_scraper_sync_absent.
Qed.

Lemma run_scraper_sync_unknown_job_witness :
  jobs_db queued_server !! "job-2" = None ∧
  ∃ e, run_scraper_sync "/usr/bin/chromedriver"
         (background (page three_then_still twin_reviews)) "job-2" place_url queued_server
       = (queued_server, Raise e) ∧
       class_of e = KeyError.
Proof.
  assert (jobs_db queued_server !! "job-2" = None) as Hjob by (vm_compute; reflexivity).
  split; [exact Hjob|].
  exact (run_scraper_sync_unknown_job _ _ "job-2" _ queued_server Hjob).
Defined.

(** ** The life of the server *)




(** X17.  A submission or a background run touches one job and one file:
    every other job of [jobs_db] and every file other than the output file
    of that job are as they were, and no job and no file is ever removed. *)
Theorem server_step_frame CHROMEDRIVER_PATH σ σ' :
  server_step CHROMEDRIVER_PATH σ σ' →
  ∃ id,
    is_Some (jobs_db σ' !! id) ∧
    (∀ id', id' ≠ id → jobs_db σ' !! id' = jobs_db σ !! id') ∧
    (∀ path, path ≠ output_path id → files σ' !! path = files σ !! path) ∧
    dom (jobs_db σ) ⊆ dom (jobs_db σ') ∧
    dom (files σ) ⊆ dom (files σ').
Proof.
  intros [σ0 uuid4 now url|σ0 env id url [job Hjob]].
  - exists uuid4. simpl. split_and!.
    + rewrite lookup_insert_eq. by eexists.
    + intros id' Hne. by rewrite lookup_insert_ne.
    + done.
    + rewrite dom_insert_L. set_solver.
    + done.
  - exists id. rewrite (run_scraper_sync_outcome _ _ _ _ _ _ Hjob).
    destruct (body_outcome CHROMEDRIVER_PATH env url id) as [reviews|e]; simpl.
    + split_and!.
      * rewrite lookup_insert_eq. by eexists.
      * intros id' Hne. by rewrite lookup_insert_ne.
      * intros path Hne. by rewrite lookup_insert_ne.
      * rewrite dom_insert_L. set_solver.
      * rewrite dom_insert_L. set_solver.
    + unfold files_after_failure. split_and!.
      * rewrite lookup_insert_eq. by eexists.
      * intros id' Hne. by rewrite lookup_insert_ne.
      * intros path Hne.
        destruct (file_opened CHROMEDRIVER_PATH env url id); [|done].
        by rewrite lookup_insert_ne.
      * rewrite dom_insert_L. set_solver.
      * destruct (file_opened CHROMEDRIVER_PATH env url id); [|done].
        rewrite dom_insert_L. set_solver.
Qed.

Lemma server_step_frame_witness :
  server_step "/usr/bin/chromedriver" queued_server
    (after_run (page three_then_still twin_reviews)) ∧
  ∃ id,
    is_Some (jobs_db (after_run (page three_then_still twin_reviews)) !! id) ∧
    (∀ id', id' ≠ id →
       jobs_db (after_run (page three_then_still twin_reviews)) !! id'
       = jobs_db queued_server !! id') ∧
    (∀ path, path ≠ output_path id →
       files (after_run (page three_then_still twin_reviews)) !! path
       = files queued_server !! path) ∧
    dom (jobs_db queued_server)
      ⊆ dom (jobs_db (after_run (page three_then_still twin_reviews))) ∧
    dom (files queued_server)
      ⊆ dom (files (after_run (page three_then_still twin_reviews))).
Proof.
  assert (server_step "/usr/bin/chromedriver" queued_server
            (after_run (page three_then_still twin_reviews))) as Hstep.
  { apply step_run. eexists. vm_compute. reflexivity. }
  split; [exact Hstep|].
  exact (server_step_frame _ _ _ Hstep).
Defined.

(** ** The server at work *)

Section TaskSteps.

Variable CHROMEDRIVER_PATH : string.
Variable env : Env.
Variables id url : string.

Lemma update_job_absent (f : Job → Job) σ :
  jobs_db σ !! id = None → fst (update_job id f σ) = σ.
Proof. unfold update_job. by intros ->. Qed.

(** [harvest_and_open], step by step. *)
Lemma harvest_and_open_eq σ :
  harvest_and_open CHROMEDRIVER_PATH env id url σ
  = match snd (scrape (job_scraper CHROMEDRIVER_PATH url) (session env) init_state) with
    | Raise e => (σ, Raise e)
    | Ok data =>
        if bool_decide (data = [])
        then (σ, Raise (mk_exn ValueError "No reviews were extracted from this location"))
        else
          match mkdir env with
          | Raise e => (σ, Raise e)
          | Ok _ =>
              match open_write env (output_path id) with
              | Raise e => (σ, Raise e)
              | Ok _ =>
                  ({| jobs_db := jobs_db σ;
                      files := <[output_path id := Truncated]> (files σ) |}, Ok data)
              end
          end
    end.
Proof.
  unfold harvest_and_open, open_file, output_path.
  unfold mbind, ST_bind, liftR, mret, ST_ret, raise.
  destruct (snd (scrape _ (session env) init_state)) as [data|e]; [|done].
  case_bool_decide as Hempty; [done|]. simpl.
  destruct (mkdir env) as [[]|e]; [|done]. simpl.
  by destruct (open_write env _) as [[]|e].
Qed.


(** The [except] clauses update the job when it is there. *)
Lemma except_clauses_found e σ job :
  jobs_db σ !! id = Some job →
  except_clauses CHROMEDRIVER_PATH env id e σ
  = ({| jobs_db := <[id := recorded_failure CHROMEDRIVER_PATH env e job]> (jobs_db σ);
        files := files σ |}, Ok tt).
Proof.
  intros Hjob. unfold except_clauses, try_except, raise, recorded_failure.
  cbn [List.find fst snd subclass].
  case_bool_decide; [by apply update_job_found|].
  case_bool_decide; by apply update_job_found.
Qed.

Lemma except_clauses_absent e σ :
  jobs_db σ !! id = None → fst (except_clauses CHROMEDRIVER_PATH env id e σ) = σ.
Proof.
  intros Hjob. unfold except_clauses, try_except, raise.
  cbn [List.find fst snd subclass].
  case_bool_decide; [by apply update_job_absent|].
  case_bool_decide; by apply update_job_absent.
Qed.



(** The statements of a run, taken one after the other with nothing in
    between, are [run_scraper_sync]. *)
Lemma task_steps_run_scraper_sync σ :
  task_steps CHROMEDRIVER_PATH env id url 5 Waiting σ
  = (fst (run_scraper_sync CHROMEDRIVER_PATH env id url σ), Finished).
Proof.
  assert (∀ n st σ0,
            task_steps CHROMEDRIVER_PATH env id url (S n) st σ0
            = task_steps CHROMEDRIVER_PATH env id url n
                (snd (task_step CHROMEDRIVER_PATH env id url st σ0))
                (fst (task_step CHROMEDRIVER_PATH env id url st σ0))) as Hstep
    by done.
  assert (∀ n σ0, task_steps CHROMEDRIVER_PATH env id url n Finished σ0 = (σ0, Finished))
    as Hend.
  { intros n σ0. by induction n. }
  destruct (jobs_db σ !! id) as [job|] eqn:Hjob.
  - rewrite (run_scraper_sync_outcome _ _ _ _ _ _ Hjob).
    rewrite Hstep. cbn [task_step]. unfold leads_to.
    rewrite (update_job_found _ _ _ _ Hjob). cbn [fst snd].
    rewrite Hstep. cbn [task_step]. unfold leads_to.
    rewrite update_job_inserted. cbn [fst snd].
    change (set_started_at (now_started env) (set_status "processing" job))
      with (set_processing (now_started env) job).
    assert (∀ n e jobs fs,
      task_steps CHROMEDRIVER_PATH env id url (S n) (Raised e)
        {| jobs_db := <[id := set_processing (now_started env) job]> jobs; files := fs |}
      = ({| jobs_db := <[id := recorded_failure CHROMEDRIVER_PATH env e
                               (set_processing (now_started env) job)]> jobs;
            files := fs |}, Finished)) as Hraised.
    { intros n e jobs fs. rewrite Hstep. cbn [task_step].
      rewrite (except_clauses_found e _ _ (lookup_insert_eq _ _ _)).
      cbn [fst snd jobs_db files]. by rewrite insert_insert_eq, Hend. }
    rewrite Hstep. cbn [task_step]. unfold leads_to. rewrite harvest_and_open_eq.
    unfold body_outcome, failed_with, files_after_failure, file_opened, stored.
    unfold mbind, result_bind.
    destruct (snd (scrape _ (session env) init_state)) as [data|e]; cbn [fst snd];
      [|by rewrite Hraised].
    case_bool_decide as Hempty; cbn [fst snd negb andb]; [by rewrite Hraised|].
    destruct (mkdir env) as [[]|e]; cbn [fst snd is_Ok andb]; [|by rewrite Hraised].
    destruct (open_write env _) as [[]|e]; cbn [fst snd is_Ok andb];
      [|by rewrite Hraised].
    rewrite Hstep. cbn [task_step]. unfold leads_to, write_file.
    fold (output_path id).
    destruct (dump env _) as [[]|e]; cbn [fst snd jobs_db files].
    + rewrite Hstep. cbn [task_step]. unfold leads_to. fold (output_path id).
      rewrite update_job_inserted. cbn [fst snd]. by rewrite insert_insert_eq.
    + rewrite Hraised. by rewrite insert_insert_eq.
  - rewrite (run_scraper_sync_absent _ _ _ _ _ Hjob).
    rewrite Hstep. cbn [task_step]. unfold leads_to, update_job. rewrite Hjob.
    cbn [fst snd]. rewrite Hstep. cbn [task_step].
    by rewrite (except_clauses_absent _ _ Hjob), Hend.
Qed.

End TaskSteps.





(** ** [find_chromedriver] *)

Lemma first_existing_Some m paths path :
  first_existing m paths = Some path →
  ∃ before after,
    paths = (before ++ path :: after)%list ∧
    Forall (fun p => path_exists m p = false) before ∧
    path_exists m path = true.
Proof.
  induction paths as [|p rest IH]; simpl; [done|].
  destruct (path_exists m p) eqn:Hp.
  - intros [= <-]. by exists [], rest.
  - intros (before & after & -> & Hb & Hpath)%IH.
    exists (p :: before), after. split_and!; [done|by constructor|done].
Qed.

Lemma first_existing_None m paths :
  first_existing m paths = None → Forall (fun p => path_exists m p = false) paths.
Proof.
  induction paths as [|p rest IH]; simpl; [constructor|].
  destruct (path_exists m p) eqn:Hp; [done|]. intros ?%IH. by constructor.
Qed.

(** X19.  [find_chromedriver] returns the path of the environment variable
    when the variable is set, not empty, and names an existing path; if not,
    the first path of the platform's list that exists; if there is none, or
    the platform is not one of the three it knows, the bare name
    ["chromedriver"].  So the path it returns exists unless it is that
    fallback. *)
Theorem find_chromedriver_choice m :
  (path_exists m (find_chromedriver m) = true ∨ find_chromedriver m = "chromedriver") ∧
  (∀ env_path,
     getenv_chromedriver m = Some env_path → env_path ≠ "" →
     path_exists m env_path = true →
     find_chromedriver m = env_path) ∧
  (getenv_chromedriver m = None ∨
   path_exists m (or_empty (getenv_chromedriver m)) = false →
   (∃ before after,
      chromedriver_paths (system m) = (before ++ find_chromedriver m :: after)%list ∧
      Forall (fun p => path_exists m p = false) before ∧
      path_exists m (find_chromedriver m) = true) ∨
   (Forall (fun p => path_exists m p = false) (chromedriver_paths (system m)) ∧
    find_chromedriver m = "chromedriver")).
Proof.
  unfold find_chromedriver. split_and!.
  - destruct (truthy _ && path_exists m _) eqn:Henv.
    + apply andb_true_iff in Henv as [_ ?]. by left.
    + destruct (first_existing m _) as [path|] eqn:Hfirst; [|by right].
      apply first_existing_Some in Hfirst as (? & ? & _ & _ & ?). by left.
  - intros env_path -> Hne Hex. simpl.
    destruct env_path; [done|]. simpl in *. by rewrite Hex.
  - intros Henv.
    assert (truthy (or_empty (getenv_chromedriver m))
            && path_exists m (or_empty (getenv_chromedriver m)) = false) as ->.
    { destruct Henv as [-> | ->]; [done|]. apply andb_false_r. }
    destruct (first_existing m _) as [path|] eqn:Hfirst.
    + left. by apply first_existing_Some.
    + right. split; [|done]. by apply first_existing_None.
Qed.

Lemma find_chromedriver_choice_witness :
  find_chromedriver linux_box = "/usr/local/bin/chromedriver" ∧
  path_exists linux_box (find_chromedriver linux_box) = true ∧
  ((∃ before after,
      chromedriver_paths (system linux_box)
      = (before ++ find_chromedriver linux_box :: after)%list ∧
      Forall (fun p => path_exists linux_box p = false) before ∧
      path_exists linux_box (find_chromedriver linux_box) = true) ∨
   (Forall (fun p => path_exists linux_box p = false)
      (chromedriver_paths (system linux_box)) ∧
    find_chromedriver linux_box = "chromedriver")).
Proof.
  split; [reflexivity|]. split; [reflexivity|].
  exact (proj2 (proj2 (find_chromedriver_choice linux_box)) (or_intror eq_refl)).
Defined.

(** ** The driver check of [tests/test_chromedriver.py] *)

Section DriverCheck.

Variable b : Bench.

(** The [try] block, step by step. *)
Lemma launch_and_load_eq path σ :
  launch_and_load b path σ
  = let σ1 := {| driver := driver σ; log := log σ ++ [NewChrome path] |} in
    let σ2 := {| driver := driver σ; log := log σ ++ [NewChrome path; Get check_url] |} in
    let σ3 := {| driver := driver σ;
                 log := log σ ++ [NewChrome path; Get check_url; Quit] |} in
    match Chrome (browser b path) path with
    | Raise e => (σ1, Raise e)
    | Ok _ =>
        match get (browser b path) check_url with
        | Raise e => (σ2, Raise e)
        | Ok _ =>
            match title b path with
            | Raise e => (σ2, Raise e)
            | Ok _ =>
                match quit (browser b path) with
                | Raise e => (σ3, Raise e)
                | Ok _ => (σ3, Ok path)
                end
            end
        end
    end.
Proof.
  unfold launch_and_load, mbind, ST_bind, call, liftR, mret, ST_ret, check_url.
  destruct (Chrome (browser b path) path); simpl; [|done].
  destruct (get (browser b path) _); simpl; rewrite <- ?app_assoc; simpl; [|done].
  destruct (title b path); simpl; [|done].
  destruct (quit (browser b path)); simpl; by rewrite <- ?app_assoc.
Qed.

Lemma launch_and_load_works path σ :
  (∃ p, snd (launch_and_load b path σ) = Ok p) ↔ path_works b path.
Proof.
  rewrite launch_and_load_eq. unfold path_works. cbv zeta.
  destruct (Chrome (browser b path) path) as [[]|]; [|split; [by intros [? ?]|by intros [? ?]]].
  destruct (get (browser b path) check_url) as [[]|];
    [|split; [by intros [? ?]|by intros (? & ? & ?)]].
  destruct (title b path);
    [|split; [by intros [? ?]|by intros (? & ? & ? & ?)]].
  destruct (quit (browser b path)) as [[]|];
    [|split; [by intros [? ?]|by intros (? & ? & ? & ?)]].
  split; [done|]. intros _. by eexists.
Qed.

(** One path of the loop: both [except] clauses give [None]. *)
Lemma try_path_eq path σ :
  try_except (p ← launch_and_load b path; mret (Some p))
    [ (FileNotFoundError, fun _ => mret None); (Exception, fun _ => mret None) ] σ
  = (fst (launch_and_load b path σ),
     Ok (match snd (launch_and_load b path σ) with
         | Ok p => Some p
         | Raise _ => None
         end)).
Proof.
  unfold try_except, mbind, ST_bind, mret, ST_ret.
  destruct (launch_and_load b path σ) as [σ' [p|e]]; simpl; [done|].
  by case_bool_decide.
Qed.

Lemma try_paths_first_working paths σ :
  ∃ found,
    snd (try_paths b paths σ) = Ok found ∧
    match found with
    | Some path =>
        ∃ before entry after,
          paths = (before ++ entry :: after)%list ∧
          or_empty entry = path ∧ entry_works b entry ∧
          Forall (fun p => ¬ entry_works b p) before
    | None => Forall (fun p => ¬ entry_works b p) paths
    end.
Proof.
  revert σ. induction paths as [|entry rest IH]; intros σ.
  - exists None. split; [done|constructor].
  - cbn [try_paths]. destruct (truthy (or_empty entry)) eqn:Hentry; cbn [negb].
    + unfold mbind at 1, ST_bind at 1. rewrite try_path_eq.
      destruct (snd (launch_and_load b (or_empty entry) σ)) as [p|e] eqn:Hload.
      * exists (Some p). split; [done|].
        assert (path_works b (or_empty entry)) as Hworks.
        { apply (launch_and_load_works _ σ). eauto. }
        assert (p = or_empty entry) as ->.
        { rewrite launch_and_load_eq in Hload. cbv zeta in Hload.
          destruct Hworks as (Hc & Hg & Ht & Hq).
          rewrite Hc, Hg, Hq in Hload.
          destruct (title b (or_empty entry)); [|done]. by injection Hload. }
        exists [], entry, rest. split_and!; [done..|constructor].
      * destruct (IH (fst (launch_and_load b (or_empty entry) σ))) as (found & Hrun & Hfound).
        exists found. split; [done|].
        assert (¬ entry_works b entry) as Hno.
        { intros [_ Hworks]. apply (launch_and_load_works _ σ) in Hworks as [p Hp].
          by rewrite Hload in Hp. }
        destruct found as [path|].
        -- destruct Hfound as (before & e' & after & -> & Hp & Hw & Hb).
           exists (entry :: before), e', after. split_and!; [done..|by constructor].
        -- by constructor.
    + destruct (IH σ) as (found & Hrun & Hfound).
      exists found. split; [done|].
      assert (¬ entry_works b entry) as Hno.
      { intros [Ht _]. by rewrite Hentry in Ht. }
      destruct found as [path|].
      * destruct Hfound as (before & e' & after & -> & Hp & Hw & Hb).
        exists (entry :: before), e', after. split_and!; [done..|by constructor].
      * by constructor.
Qed.

End DriverCheck.

(** X20.  The driver check never raises.  It returns the first entry of its
    list of paths that is not empty and passes the check (the driver starts,
    loads the page, gives its title and quits), and [None] when no entry
    does. *)
Theorem test_chromedriver_first_working b σ :
  ∃ found,
    snd (test_chromedriver b σ) = Ok found ∧
    match found with
    | Some path =>
        ∃ before entry after,
          paths_to_try b = (before ++ entry :: after)%list ∧
          or_empty entry = path ∧ entry_works b entry ∧
          Forall (fun p => ¬ entry_works b p) before
    | None => Forall (fun p => ¬ entry_works b p) (paths_to_try b)
    end.
Proof. apply try_paths_first_working. Qed.

(** X21.  The driver check does not release a driver that started and then
    failed: when the driver at a path starts and the load of the page or the
    read of the title raises, the loop goes on to the next path with the
    creation of the driver and the navigation in the log and no [quit]. *)
Theorem test_chromedriver_leaves_driver b path rest σ e :
  truthy path = true →
  Chrome (browser b path) path = Ok tt →
  get (browser b path) check_url = Raise e ∨
  (get (browser b path) check_url = Ok tt ∧ title b path = Raise e) →
  try_paths b (Some path :: rest) σ
  = try_paths b rest
      {| driver := driver σ; log := log σ ++ [NewChrome path; Get check_url] |}.
Proof.
  intros Hpath Hchrome Hfail. cbn [try_paths].
  assert (or_empty (Some path) = path) as -> by (simpl; by rewrite Hpath).
  rewrite Hpath. cbn [negb].
  unfold mbind at 1, ST_bind at 1. rewrite try_path_eq, launch_and_load_eq.
  cbv zeta. rewrite Hchrome.
  by destruct Hfail as [-> | [-> ->]].
Qed.

Lemma test_chromedriver_leaves_driver_witness :
  test_chromedriver work_bench init_state
  = ({| driver := false;
        log := [ NewChrome "chromedriver";
                 NewChrome "/usr/local/bin/chromedriver"; Get check_url;
                 NewChrome "/usr/bin/chromedriver"; Get check_url; Quit ] |},
     Ok (Some "/usr/bin/chromedriver")) ∧
  try_paths work_bench [Some "/usr/local/bin/chromedriver"; Some "/usr/bin/chromedriver"]
    init_state
  = try_paths work_bench [Some "/usr/bin/chromedriver"]
      {| driver := false;
         log := [NewChrome "/usr/local/bin/chromedriver"; Get check_url] |}.
Proof.
  split; [vm_compute; reflexivity|].
  exact (test_chromedriver_leaves_driver work_bench "/usr/local/bin/chromedriver"
           [Some "/usr/bin/chromedriver"] init_state _ eq_refl eq_refl
           (or_introl eq_refl)).
Defined.
